(** * Extraction-and-ranking pipeline of [utils.py]

  A shallow embedding of [get_sections_from_pdf], [score_relevance] and
  [process_documents], together with the Python built-ins they rely on
  ([str.strip], [str.split], slicing, [os.path.basename], [enumerate],
  [sorted]).  The document backend ([fitz]), the embedding model
  ([model.encode]), the similarity kernel ([util.pytorch_cos_sim]) and the
  float operations [<] and [round(_, 4)] are external to the repository and
  enter the development as section variables. *)

From Stdlib Require Import String Ascii.
From Stdlib Require Import List ZArith NArith Arith Lia Bool.
From Stdlib Require Import Sorting.Sorted Sorting.Permutation.
Import ListNotations.
Open Scope list_scope.

Set Implicit Arguments.

(** ** Python strings *)

Module PyStr.

(** A Python [str] is a sequence of Unicode code points. *)
Definition char := N.
Definition str := list char.

Definition of_string (s : string) : str :=
  map N_of_ascii (list_ascii_of_string s).

Definition newline : char := 10%N.
Definition slash : char := 47%N.

(** [str.isspace] on one code point (CPython's whitespace table). *)
Definition isspace (c : char) : bool :=
  ((9 <=? c) && (c <=? 13) || (28 <=? c) && (c <=? 32)
   || (c =? 133) || (c =? 160) || (c =? 5760)
   || (8192 <=? c) && (c <=? 8202)
   || (c =? 8232) || (c =? 8233) || (c =? 8239) || (c =? 8287)
   || (c =? 12288))%N.

Fixpoint lstrip (s : str) : str :=
  match s with
  | [] => []
  | c :: s' => if isspace c then lstrip s' else s
  end.

Definition rstrip (s : str) : str := rev (lstrip (rev s)).

(** [s.strip()] *)
Definition strip (s : str) : str := rstrip (lstrip s).

(** [s.split(sep)] for a one-character separator; never the empty list. *)
Fixpoint split (sep : char) (s : str) : list str :=
  match s with
  | [] => [[]]
  | c :: s' =>
      if (c =? sep)%N then [] :: split sep s'
      else match split sep s' with
           | w :: ws => (c :: w) :: ws
           | [] => [[c]]
           end
  end.

(** [s[:n]] for a non-negative literal [n]. *)
Definition slice_to (n : nat) (s : str) : str := firstn n s.

(** [s[i:]] for an integer [i >= 0]. *)
Definition slice_from (i : Z) (s : str) : str := skipn (Z.to_nat i) s.

Fixpoint rfind_from (c : char) (s : str) (i last : Z) : Z :=
  match s with
  | [] => last
  | x :: s' => rfind_from c s' (i + 1)%Z (if (x =? c)%N then i else last)
  end.

(** [s.rfind(c)]: index of the last occurrence, [-1] when there is none. *)
Definition rfind (c : char) (s : str) : Z := rfind_from c s 0%Z (-1)%Z.

(** [os.path.basename] (posixpath): [i = p.rfind('/') + 1; return p[i:]]. *)
Definition basename (p : str) : str := slice_from (rfind slash p + 1)%Z p.

(** [a] is a prefix of [b]. *)
Definition prefix (a b : str) : Prop := exists rest, b = a ++ rest.

End PyStr.
Import PyStr.

(** [enumerate(l)] *)
Definition enumerate {A : Type} (l : list A) : list (nat * A) :=
  combine (seq 0 (length l)) l.

(** ** Exceptions and results *)

Inductive error : Type :=
| OpenError (path : str)   (* [fitz.open(path)] raised *)
| EncodeError              (* [model.encode] raised *)
| IndexError               (* list index out of range *)
| KeyError.                (* missing dict key *)

Inductive result (A : Type) : Type :=
| Ok (a : A)
| Err (e : error).
Arguments Err {A} e.

Definition rbind {A B : Type} (r : result A) (k : A -> result B) : result B :=
  match r with
  | Ok a => k a
  | Err e => Err e
  end.

Notation "x <~ r ;; k" := (rbind r (fun x => k))
  (at level 61, r at next level, right associativity).

Fixpoint mapR {A B : Type} (f : A -> result B) (l : list A) : result (list B) :=
  match l with
  | [] => Ok []
  | a :: l' => b <~ f a ;; bs <~ mapR f l' ;; Ok (b :: bs)
  end.

(** ** The built-in [sorted]

    CPython decorates every item with its key, sorts the decorated list with
    a stable sort that compares keys with [<] only, and undecorates.  With
    [reverse=True] the list is reversed before and after the ascending sort,
    which is what keeps equal keys in input order.  The ascending sort is the
    insertion sort CPython runs on short lists: each pivot goes to the right
    of every element that is not greater than it.  On keys that [<] orders
    as a strict weak order every stable sort returns this same list. *)

Section Sorted.

Variables A K : Type.
Variable ltb : K -> K -> bool.

Fixpoint insort (x : K * A) (l : list (K * A)) : list (K * A) :=
  match l with
  | [] => [x]
  | y :: l' => if ltb (fst x) (fst y) then x :: l else y :: insort x l'
  end.

Definition sort_asc (l : list (K * A)) : list (K * A) :=
  fold_left (fun acc x => insort x acc) l [].

Definition list_sort (reverse : bool) (l : list (K * A)) : list (K * A) :=
  if reverse then rev (sort_asc (rev l)) else sort_asc l.

Definition sorted (items : list A) (key : A -> result K) (reverse : bool)
  : result (list A) :=
  keys <~ mapR key items ;;
  Ok (map snd (list_sort reverse (combine keys items))).

End Sorted.

(** ** Data model *)

(** A text block of [page.get_text("blocks")] is the tuple
    [(x0, y0, x1, y1, text, block_no, block_type)]; the code reads [b[4]]
    only, so the bounding box is left out. *)
Record block : Type := Block {
  b4 : str;
  block_no : nat;
  block_type : nat
}.

Definition fitz_page := list block.
Definition fitz_document := list fitz_page.

(** Calls made to the external collaborators, in the order they happen. *)
Inductive call : Type :=
| CallOpen (path : str)
| CallEncodeBatch (sentences : list str)
| CallEncodeQuery (sentence : str).

Record run_metadata : Type := Metadata {
  documents : list str;
  persona : str;
  job : str;
  timestamp : str
}.

Record subsection_entry : Type := SubsectionEntry {
  sub_document : str;
  sub_page : nat;
  refined_text : str
}.

(** ** Computations that call the back ends

    A computation threads the log of the external calls made so far and
    ends with a value or with the exception that aborted it. *)

Definition M (A : Type) : Type := list call -> result A * list call.

Definition ret {A : Type} (a : A) : M A := fun log => (Ok a, log).

Definition bind {A B : Type} (m : M A) (k : A -> M B) : M B :=
  fun log =>
    match m log with
    | (Ok a, log') => k a log'
    | (Err e, log') => (Err e, log')
    end.

Definition lift {A : Type} (r : result A) : M A := fun log => (r, log).

(** Perform the external call [c], whose outcome is [r]. *)
Definition perform {A : Type} (c : call) (r : option A) (e : error) : M A :=
  fun log =>
    (match r with Some a => Ok a | None => Err e end, log ++ [c]).

Notation "x <- m ;; k" := (bind m (fun x => k))
  (at level 61, m at next level, right associativity).

(** The collaborators of one deployment.  [float] stands for Python floats
    with their [<] ([flt]) and [round(_, 4)] ([round4]); [tensor] for the
    vectors of the embedding model; [cos_sim q e] for
    [float(util.pytorch_cos_sim(q, es)[0][j])] where [e] is row [j] of [es];
    [encode_batch], [encode_query] and [fitz_open] answer [None] when the
    library call raises. *)
Record backend : Type := Backend {
  float : Type;
  flt : float -> float -> bool;
  round4 : float -> float;
  tensor : Type;
  encode_batch : list str -> option (list tensor);
  encode_query : str -> option tensor;
  cos_sim : tensor -> tensor -> float;
  fitz_open : str -> option fitz_document
}.

Section Pipeline.

Variable B : backend.

(** The dict built by [get_sections_from_pdf]; the key ["score"] is absent
    until [score_relevance] sets it. *)
Record candidate : Type := Candidate {
  doc : str;
  page : nat;
  text : str;
  score : option (float B)
}.

Record section_entry : Type := SectionEntry {
  document : str;
  page_ : nat;
  section_title : str;
  importance_rank : nat;
  score_ : float B
}.

Record report : Type := Report {
  metadata : run_metadata;
  extracted_sections : list section_entry;
  subsection_analysis : list subsection_entry
}.

(** [t["score"] = s] *)
Definition set_score (t : candidate) (s : float B) : candidate :=
  {| doc := doc t; page := page t; text := text t; score := Some s |}.

(** [x["score"]] *)
Definition get_score (x : candidate) : result (float B) :=
  match score x with
  | Some s => Ok s
  | None => Err KeyError
  end.

(** The inner loop of [get_sections_from_pdf] over the blocks of page [i]. *)
Definition page_sections (path : str) (i : nat) (blocks : fitz_page)
  : list candidate :=
  flat_map
    (fun b =>
       let text := strip (b4 b) in
       if 30 <=? length text
       then [ {| doc := basename path; page := i + 1; text := text;
                 score := None |} ]
       else [])
    blocks.

Definition doc_sections (path : str) (d : fitz_document) : list candidate :=
  flat_map (fun ip => page_sections path (fst ip) (snd ip)) (enumerate d).

Definition get_sections_from_pdf (path : str) : M (list candidate) :=
  d <- perform (CallOpen path) (fitz_open B path) (OpenError path) ;;
  ret (doc_sections path d).

(** [for i, s in enumerate(scores): texts[i]["score"] = float(s)] *)
Fixpoint assign_scores (texts : list candidate) (scores : list (float B))
  : result (list candidate) :=
  match scores, texts with
  | [], _ => Ok texts
  | _ :: _, [] => Err IndexError
  | s :: scores', t :: texts' =>
      rest <~ assign_scores texts' scores' ;;
      Ok (set_score t s :: rest)
  end.

Definition score_relevance (texts : list candidate) (query : str)
  : M (list candidate) :=
  text_embeddings <-
    perform (CallEncodeBatch (map text texts))
            (encode_batch B (map text texts)) EncodeError ;;
  query_embedding <-
    perform (CallEncodeQuery query) (encode_query B query) EncodeError ;;
  let scores := map (cos_sim B query_embedding) text_embeddings in
  texts' <- lift (assign_scores texts scores) ;;
  lift (sorted (@flt B) texts' get_score true).

(** The loop over [pdf_paths] that extends [all_sections]. *)
Fixpoint collect_sections (pdf_paths : list str)
         (all_sections : list candidate) : M (list candidate) :=
  match pdf_paths with
  | [] => ret all_sections
  | path :: rest =>
      sections <- get_sections_from_pdf path ;;
      collect_sections rest (all_sections ++ sections)
  end.

(** The f-string [f"{persona} needs to {job}"]. *)
Definition full_query (persona job : str) : str :=
  persona ++ of_string " needs to " ++ job.

Definition section_of (is_ : nat * candidate) : result section_entry :=
  let (i, s) := is_ in
  sc <~ get_score s ;;
  Ok {| document := doc s;
        page_ := page s;
        section_title := slice_to 50 (hd [] (split newline (text s)));
        importance_rank := i + 1;
        score_ := round4 B sc |}.

Definition subsection_of (s : candidate) : subsection_entry :=
  {| sub_document := doc s;
     sub_page := page s;
     refined_text := slice_to 300 (text s) |}.

Definition process_documents (pdf_paths : list str)
           (persona job timestamp : str) : M report :=
  all_sections <- collect_sections pdf_paths [] ;;
  ranked <- score_relevance all_sections (full_query persona job) ;;
  let ranked_sections := firstn 10 ranked in
  let md := {| documents := map basename pdf_paths;
               persona := persona;
               job := job;
               timestamp := timestamp |} in
  es <- lift (mapR section_of (enumerate ranked_sections)) ;;
  ret {| metadata := md;
         extracted_sections := es;
         subsection_analysis := map subsection_of ranked_sections |}.

(** *** Vocabulary of the statements *)

(** The pool of candidates of the documents [ds] opened from [paths]. *)
Definition pool_of (paths : list str) (ds : list fitz_document)
  : list candidate :=
  flat_map (fun pd => doc_sections (fst pd) (snd pd)) (combine paths ds).

(** A block passes the filter: its stripped text has 30 characters or
    more. *)
Definition qualifies (b : block) : bool := 30 <=? length (strip (b4 b)).

(** Number of blocks that pass the length filter, over all documents. *)
Definition qualifying_count (ds : list fitz_document) : nat :=
  list_sum (map (fun d => length (filter qualifies (concat d))) ds).

(** Every path opens, in order, to the corresponding document. *)
Definition opens (paths : list str) (ds : list fitz_document) : Prop :=
  Forall2 (fun p d => fitz_open B p = Some d) paths ds.

(** [t'] is the dict [t], possibly with its score set. *)
Definition same_source (t t' : candidate) : Prop :=
  doc t' = doc t /\ page t' = page t /\ text t' = text t.

(** [a < b] on the scores of two scored candidates. *)
Definition score_ltb (a b : candidate) : bool :=
  match score a, score b with
  | Some x, Some y => flt B x y
  | _, _ => false
  end.

(** The candidates whose score ties with [k] (neither is below the other). *)
Definition ties_with (k : float B) (c : candidate) : bool :=
  match score c with
  | Some x => negb (flt B x k) && negb (flt B k x)
  | None => false
  end.

(** No earlier candidate scores below a later one. *)
Definition descending (l : list candidate) : Prop :=
  StronglySorted (fun a b => score_ltb a b = false) l.

End Pipeline.

(** [<] on the scores is a strict weak order, as it is on Python floats
    that are not NaN. *)
Record float_order (B : backend) : Prop := FloatOrder {
  flt_irrefl : forall a, flt B a a = false;
  flt_trans :
    forall a b c, flt B a b = true -> flt B b c = true -> flt B a c = true;
  flt_negtrans :
    forall a b c, flt B a b = false -> flt B b c = false -> flt B a c = false
}.

(** [round(_, 4)] never reverses the order of two scores. *)
Definition round4_monotone (B : backend) : Prop :=
  forall a b, flt B a b = false -> flt B (round4 B a) (round4 B b) = false.

Arguments Candidate {B}.
Arguments doc {B}.
Arguments page {B}.
Arguments text {B}.
Arguments score {B}.
Arguments section_title {B}.
Arguments importance_rank {B}.
Arguments score_ {B}.
Arguments metadata {B}.
Arguments extracted_sections {B}.
Arguments subsection_analysis {B}.
Arguments get_score {B}.
Arguments set_score {B}.
Arguments section_of {B}.
Arguments subsection_of {B}.
Arguments same_source {B}.
Arguments score_ltb {B}.
Arguments ties_with {B}.
Arguments SectionEntry {B}.
Arguments Report {B}.

(** ** A deterministic fake deployment

    Scores are integers (millionths), a sentence is embedded as its length
    and two embeddings are the more similar the closer they are; three
    uploaded files, the second of which holds a single ten-character
    block. *)

Module Fake.

Fixpoint str_eqb (a b : str) : bool :=
  match a, b with
  | [], [] => true
  | x :: a', y :: b' => (x =? y)%N && str_eqb a' b'
  | _, _ => false
  end.

Definition blk (s : str) : block :=
  {| b4 := s; block_no := 0; block_type := 0 |}.

Definition doc_a : fitz_document :=
  [ [ blk (of_string "Page 1");
      blk (of_string
             "  Vegetarian menus rely on legumes, grains and vegetables.  ") ];
    [ blk (of_string "Iron and protein" ++ [newline]
           ++ of_string
                "A nutritionist plans menus around iron and protein.") ] ].

Definition doc_b : fitz_document := [ [ blk (of_string "short note") ] ].

Definition doc_c : fitz_document :=
  [ [ blk (of_string
             "Grilled vegetables with rice make a simple weekday meal.");
      blk ([newline]
           ++ of_string
                "Legumes, grains and vegetables feed vegetarian menus."
           ++ [newline]) ] ].

Definition path_a : str := of_string "uploads/a.pdf".
Definition path_b : str := of_string "uploads/b.pdf".
Definition path_c : str := of_string "uploads/c.pdf".

Definition open (path : str) : option fitz_document :=
  if str_eqb path path_a then Some doc_a
  else if str_eqb path path_b then Some doc_b
  else if str_eqb path path_c then Some doc_c
  else None.

Definition embed (s : str) : Z := Z.of_nat (length s).

Definition similarity (q e : Z) : Z := (1000000 - 12345 * Z.abs (q - e))%Z.

Definition round_to_hundreds (z : Z) : Z := (100 * ((z + 50) / 100))%Z.

Definition deployment : backend :=
  {| float := Z;
     flt := Z.ltb;
     round4 := round_to_hundreds;
     tensor := Z;
     encode_batch := fun sentences => Some (map embed sentences);
     encode_query := fun sentence => Some (embed sentence);
     cos_sim := similarity;
     fitz_open := open |}.

Definition paths : list str := [path_a; path_b; path_c].
Definition docs : list fitz_document := [doc_a; doc_b; doc_c].
Definition persona : str := of_string "a nutritionist".
Definition job : str := of_string "plan a vegetarian menu".
Definition timestamp : str := of_string "2024-01-01 00:00:00".
Definition query : str := full_query persona job.
Definition pool : list (candidate deployment) := pool_of deployment paths docs.

(** The outcome of the scorer on the pool. *)
Definition ranking : list (candidate deployment) * list call :=
  Eval vm_compute in
    match score_relevance pool query [] with
    | (Ok out, log) => (out, log)
    | (Err _, log) => ([], log)
    end.

(** The outcome of the pipeline on the three files. *)
Definition outcome : report deployment :=
  Eval vm_compute in
    match
      fst (process_documents deployment paths persona job timestamp [])
    with
    | Ok r => r
    | Err _ => Report (Metadata [] [] [] []) [] []
    end.

Definition calls : list call :=
  Eval vm_compute in
    snd (process_documents deployment paths persona job timestamp []).

End Fake.

(** ** The upload handler ([app.py])

    [index] runs on one request.  What the handler does to the outside is
    recorded as a list of events; the file system and the clock of the
    host are parameters: whether [f.save(path)] succeeds, what
    [time.strftime] answers, whether the output file can be written.  The
    backend's [fitz_open] is what [fitz.open] answers once the uploads are
    saved. *)

Fixpoint eqb_str (a b : str) : bool :=
  match a, b with
  | [], [] => true
  | x :: a', y :: b' => (x =? y)%N && eqb_str a' b'
  | _, _ => false
  end.

(** [s.startswith(c)] and [s.endswith(c)] for one character. *)
Definition startswith (c : char) (s : str) : bool :=
  match s with
  | x :: _ => (x =? c)%N
  | [] => false
  end.

Definition endswith (c : char) (s : str) : bool := startswith c (rev s).

(** [os.path.join(a, b)] (posixpath): an absolute [b] replaces [a];
    otherwise [b] is appended, after a ['/'] unless [a] is empty or ends
    with one. *)
Definition path_join (a b : str) : str :=
  if startswith slash b then b
  else if (length a =? 0) || endswith slash a then a ++ b
  else a ++ slash :: b.

Definition UPLOAD_FOLDER : str := of_string "uploads".
Definition OUTPUT_FILE : str := of_string "output/result.json".

(** The message of [flash]. *)
Definition flash_message : str :=
  of_string "Please enter all fields and upload at least 3 PDFs.".

(** An uploaded file (werkzeug's [FileStorage]). *)
Record file_storage : Type := FileStorage {
  filename : str;
  stream : list N
}.

(** [request]: the method, the form fields and the uploaded files, the
    last two as multi-dicts (lists of pairs, in submission order). *)
Record request : Type := Request {
  method : str;
  form : list (str * str);
  files : list (str * file_storage)
}.

(** [form.get(key)]: the first value under [key], [None] without one. *)
Fixpoint form_get (key : str) (fields : list (str * str)) : option str :=
  match fields with
  | [] => None
  | (k, v) :: rest => if eqb_str k key then Some v else form_get key rest
  end.

(** [files.getlist(key)]: every file under [key], in order. *)
Definition getlist (key : str) (uploads : list (str * file_storage))
  : list file_storage :=
  map snd (filter (fun kv => eqb_str (fst kv) key) uploads).

(** [not v] for [v] a string or [None]. *)
Definition py_not (v : option str) : bool :=
  match v with
  | Some (_ :: _) => false
  | _ => true
  end.

(** The string behind a form value known not to be [None]. *)
Definition as_str (v : option str) : str :=
  match v with
  | Some s => s
  | None => []
  end.

Record host : Type := Host {
  save_ok : str -> bool;
  strftime : str;
  output_ok : bool
}.

Inductive app_error : Type :=
| SaveError (path : str)       (* [f.save(path)] raised *)
| PipelineError (e : error)    (* [process_documents] raised [e] *)
| OutputError (path : str).    (* writing the output file raised *)

Inductive app_result (A : Type) : Type :=
| Done (a : A)
| Raised (e : app_error).
Arguments Raised {A} e.

Section App.

Variable B : backend.
Variable Hst : host.

Inductive event : Type :=
| Flash (message : str)
| Save (f : file_storage) (path : str)
| Strftime
| Core (c : call)
| Dump (path : str) (result : report B).

Inductive response : Type :=
| Redirect (endpoint : str)
| RenderTemplate (template : str) (result : option (report B))
                 (persona job : option str).

Definition App (A : Type) : Type := list event -> app_result A * list event.

Definition aret {A : Type} (a : A) : App A := fun evs => (Done a, evs).

Definition abind {A C : Type} (m : App A) (k : A -> App C) : App C :=
  fun evs =>
    match m evs with
    | (Done a, evs') => k a evs'
    | (Raised e, evs') => (Raised e, evs')
    end.

Notation "x <<- m ;; k" := (abind m (fun x => k))
  (at level 61, m at next level, right associativity).

(** [flash(message)] *)
Definition flash (message : str) : App unit :=
  fun evs => (Done tt, evs ++ [Flash message]).

(** [f.save(path)] *)
Definition save (f : file_storage) (path : str) : App unit :=
  fun evs =>
    (if save_ok Hst path then Done tt else Raised (SaveError path),
     evs ++ [Save f path]).

(** [time.strftime("%Y-%m-%d %H:%M:%S")] *)
Definition now : App str :=
  fun evs => (Done (strftime Hst), evs ++ [Strftime]).

(** A call into [utils.py]: its external calls become events. *)
Definition core {A : Type} (m : M A) : App A :=
  fun evs =>
    let (r, calls) := m [] in
    (match r with
     | Ok a => Done a
     | Err e => Raised (PipelineError e)
     end,
     evs ++ map Core calls).

(** [with open(path, "w") as out: json.dump(result, out, ...)] *)
Definition dump (path : str) (result : report B) : App unit :=
  fun evs =>
    (if output_ok Hst then Done tt else Raised (OutputError path),
     evs ++ [Dump path result]).

(** The loop that saves the uploads and collects [pdf_paths]. *)
Fixpoint save_uploads (fs : list file_storage) (pdf_paths : list str)
  : App (list str) :=
  match fs with
  | [] => aret pdf_paths
  | f :: rest =>
      let filepath := path_join UPLOAD_FOLDER (filename f) in
      _ <<- save f filepath ;;
      save_uploads rest (pdf_paths ++ [filepath])
  end.

Definition index (req : request) : App response :=
  if eqb_str (method req) (of_string "POST") then
    let persona := form_get (of_string "persona") (form req) in
    let job := form_get (of_string "job") (form req) in
    let files := getlist (of_string "documents") (files req) in
    if py_not persona || py_not job || (length files <? 3) then
      _ <<- flash flash_message ;;
      aret (Redirect (of_string "index"))
    else
      pdf_paths <<- save_uploads files [] ;;
      timestamp <<- now ;;
      result <<-
        core (process_documents B pdf_paths (as_str persona) (as_str job)
                timestamp) ;;
      _ <<- dump OUTPUT_FILE result ;;
      aret (RenderTemplate (of_string "index.html") (Some result)
              persona job)
  else
    aret (RenderTemplate (of_string "index.html") None None None).

(** *** Vocabulary of the statements *)

(** The path under which the handler saves an upload. *)
Definition upload_path (f : file_storage) : str :=
  path_join UPLOAD_FOLDER (filename f).

(** The form values and the uploads the handler reads from a request. *)
Definition persona_of (req : request) : option str :=
  form_get (of_string "persona") (form req).

Definition job_of (req : request) : option str :=
  form_get (of_string "job") (form req).

Definition uploads_of (req : request) : list file_storage :=
  getlist (of_string "documents") (files req).

(** The [f.save] events of a list of uploads, in order. *)
Definition saves_of (fs : list file_storage) : list event :=
  map (fun f => Save f (upload_path f)) fs.

(** The request is a POST with a non-empty persona, a non-empty job and
    three files or more. *)
Definition complete_post (req : request) : bool :=
  eqb_str (method req) (of_string "POST")
  && negb (py_not (persona_of req))
  && negb (py_not (job_of req))
  && (3 <=? length (uploads_of req)).

End App.

Arguments Flash {B}.
Arguments Save {B}.
Arguments Strftime {B}.
Arguments Core {B}.
Arguments Redirect {B}.

(** ** A fake host and two requests *)

Module FakeApp.

Definition upload (name : str) : str * file_storage :=
  (of_string "documents", {| filename := name; stream := [] |}).

Definition machine : host :=
  {| save_ok := fun _ => true;
     strftime := Fake.timestamp;
     output_ok := true |}.

Definition fields : list (str * str) :=
  [ (of_string "persona", Fake.persona); (of_string "job", Fake.job) ].

Definition post : request :=
  {| method := of_string "POST";
     form := fields;
     files := [ upload (of_string "a.pdf"); upload (of_string "b.pdf");
                upload (of_string "c.pdf") ] |}.

(** The same form with two files only. *)
Definition short_post : request :=
  {| method := of_string "POST";
     form := fields;
     files := [ upload (of_string "a.pdf"); upload (of_string "b.pdf") ] |}.

(** Three files, the last of which the document backend cannot open. *)
Definition unreadable_post : request :=
  {| method := of_string "POST";
     form := fields;
     files := [ upload (of_string "a.pdf"); upload (of_string "b.pdf");
                upload (of_string "missing.pdf") ] |}.

(** A host on which only the first upload can be saved. *)
Definition full_disk : host :=
  {| save_ok := fun path => eqb_str path Fake.path_a;
     strftime := Fake.timestamp;
     output_ok := true |}.

End FakeApp.

(** ** Deployments whose model misbehaves *)

Module Faulty.

Definition with_model (batch : list str -> option (list Z))
           (single : str -> option Z) : backend :=
  {| float := Z;
     flt := Z.ltb;
     round4 := Fake.round_to_hundreds;
     tensor := Z;
     encode_batch := batch;
     encode_query := single;
     cos_sim := Fake.similarity;
     fitz_open := Fake.open |}.

(** The batch call raises. *)
Definition no_batch : backend :=
  with_model (fun _ => None) (fun s => Some (Fake.embed s)).

(** The query call raises. *)
Definition no_query : backend :=
  with_model (fun ss => Some (map Fake.embed ss)) (fun _ => None).

(** One vector too few. *)
Definition too_few : backend :=
  with_model (fun ss => Some (map Fake.embed (tl ss)))
             (fun s => Some (Fake.embed s)).

(** One vector too many. *)
Definition too_many : backend :=
  with_model (fun ss => Some (0%Z :: map Fake.embed ss))
             (fun s => Some (Fake.embed s)).

Definition missing_path : str := of_string "uploads/missing.pdf".

End Faulty.

(** ** A deployment with more candidates than the report holds *)

Module Crowded.

(** A block of [30 + k] letters. *)
Definition line (k : nat) : str := repeat 120%N (30 + k).

(** Twelve qualifying blocks over two pages, and one short block. *)
Definition doc : fitz_document :=
  [ map (fun k => Fake.blk (line k)) (seq 0 7);
    Fake.blk (of_string "7") :: map (fun k => Fake.blk (line k)) (seq 7 5) ].

Definition path : str := of_string "uploads/long.pdf".

Definition deployment : backend :=
  {| float := Z;
     flt := Z.ltb;
     round4 := Fake.round_to_hundreds;
     tensor := Z;
     encode_batch := fun sentences => Some (map Fake.embed sentences);
     encode_query := fun sentence => Some (Fake.embed sentence);
     cos_sim := Fake.similarity;
     fitz_open := fun _ => Some doc |}.

Definition outcome : report deployment :=
  Eval vm_compute in
    match
      fst (process_documents deployment [path] Fake.persona Fake.job
             Fake.timestamp [])
    with
    | Ok r => r
    | Err _ => Report (Metadata [] [] [] []) [] []
    end.

Definition calls : list call :=
  Eval vm_compute in
    snd (process_documents deployment [path] Fake.persona Fake.job
           Fake.timestamp []).

End Crowded.

(** * Properties *)

(** ** Strings *)

Lemma split_nonempty (sep : char) (s : str) : split sep s <> [].
Proof.
  destruct s as [|c s]; simpl; [discriminate|].
  destruct (c =? sep)%N; [discriminate|].
  destruct (split sep s); discriminate.
Qed.

(** The first segment of [split] is the part of the string before the first
    separator. *)
Lemma split_hd_spec (sep : char) (s : str) :
  exists rest,
    s = hd [] (split sep s) ++ rest
    /\ ~ In sep (hd [] (split sep s))
    /\ (rest = [] \/ exists r, rest = sep :: r).
Proof.
  induction s as [|c s IH]; simpl.
  - exists []; auto.
  - destruct (N.eqb_spec c sep) as [->|Hne]; simpl.
    + exists (sep :: s); repeat split; eauto.
    + destruct IH as (rest & Hs & Hin & Hrest).
      destruct (split sep s) as [|w ws] eqn:E; simpl in *.
      * exists rest. rewrite Hs at 1. repeat split; auto.
        intros [H|[]]; congruence.
      * exists rest. rewrite Hs at 1. repeat split; auto.
        intros [H|H]; [congruence | auto].
Qed.

Lemma split_hd_no_sep (sep : char) (s : str) :
  ~ In sep s -> hd [] (split sep s) = s.
Proof.
  induction s as [|c s IH]; simpl; intros Hin; [reflexivity|].
  destruct (N.eqb_spec c sep) as [->|Hne]; [exfalso; auto|].
  assert (H : hd [] (split sep s) = s) by (apply IH; auto).
  destruct (split sep s); simpl in *; congruence.
Qed.

Lemma prefix_firstn (n : nat) (s : str) : prefix (slice_to n s) s.
Proof. exists (skipn n s). symmetry. apply firstn_skipn. Qed.

Lemma prefix_trans (a b c : str) : prefix a b -> prefix b c -> prefix a c.
Proof.
  intros [r1 ->] [r2 ->]. exists (r1 ++ r2). now rewrite app_assoc.
Qed.

Lemma prefix_into_firstn (n : nat) (a t : str) :
  prefix a t -> length a <= n -> prefix a (slice_to n t).
Proof.
  intros [r ->] Hlen. unfold slice_to.
  exists (firstn (n - length a) r).
  rewrite firstn_app, (firstn_all2 a) by exact Hlen. reflexivity.
Qed.

Lemma slice_to_length (n : nat) (s : str) : length (slice_to n s) <= n.
Proof. unfold slice_to. rewrite length_firstn. lia. Qed.

Lemma lstrip_idem (s : str) : lstrip (lstrip s) = lstrip s.
Proof.
  induction s as [|c s IH]; simpl; [reflexivity|].
  destruct (isspace c) eqn:E; [exact IH|]. simpl. now rewrite E.
Qed.

Lemma lstrip_length (s : str) : length (lstrip s) <= length s.
Proof.
  induction s as [|c s IH]; simpl; [lia|].
  destruct (isspace c); simpl; lia.
Qed.

Lemma lstrip_snoc (l : str) (h : char) :
  isspace h = false -> lstrip (l ++ [h]) = lstrip l ++ [h].
Proof.
  intros Hh. induction l as [|c l IH]; simpl.
  - now rewrite Hh.
  - destruct (isspace c); [exact IH | reflexivity].
Qed.

Lemma lstrip_fixed_rstrip (u : str) :
  lstrip u = u -> lstrip (rstrip u) = rstrip u.
Proof.
  destruct u as [|h t]; [reflexivity|]. intros Hu.
  assert (Hh : isspace h = false).
  { destruct (isspace h) eqn:E; [|reflexivity]. simpl in Hu. rewrite E in Hu.
    pose proof (lstrip_length t) as Hl. rewrite Hu in Hl. simpl in Hl. lia. }
  unfold rstrip. simpl rev at 2 4. rewrite lstrip_snoc by exact Hh.
  rewrite rev_app_distr. simpl. now rewrite Hh.
Qed.

(** Stripping a stripped string changes nothing. *)
Lemma strip_idem (s : str) : strip (strip s) = strip s.
Proof.
  unfold strip.
  rewrite (@lstrip_fixed_rstrip (lstrip s) (lstrip_idem s)).
  unfold rstrip. now rewrite rev_involutive, lstrip_idem.
Qed.

Lemma lstrip_spec (s : str) :
  exists l, s = l ++ lstrip s /\ forallb isspace l = true.
Proof.
  induction s as [|c s (l & Hs & Hl)]; simpl.
  - exists []. auto.
  - destruct (isspace c) eqn:E.
    + exists (c :: l). simpl. rewrite E, Hl. split; [now f_equal | reflexivity].
    + exists []. auto.
Qed.

Lemma rstrip_spec (s : str) :
  exists r, s = rstrip s ++ r /\ forallb isspace r = true.
Proof.
  destruct (lstrip_spec (rev s)) as (l & Hs & Hl). exists (rev l). split.
  - unfold rstrip. rewrite <- rev_app_distr, <- Hs. now rewrite rev_involutive.
  - rewrite forallb_forall in Hl |- *. intros c Hc. apply Hl.
    now apply in_rev.
Qed.

(** [strip] removes a run of whitespace at each end, and nothing else:
    what is left neither starts nor ends with whitespace. *)
Lemma strip_spec (s : str) :
  exists l r,
    s = l ++ strip s ++ r
    /\ forallb isspace l = true /\ forallb isspace r = true
    /\ lstrip (strip s) = strip s /\ rstrip (strip s) = strip s.
Proof.
  destruct (lstrip_spec s) as (l & Hs & Hl).
  destruct (rstrip_spec (lstrip s)) as (r & Hu & Hr).
  exists l, r. unfold strip. repeat split; auto.
  - rewrite <- Hu. exact Hs.
  - apply lstrip_fixed_rstrip, lstrip_idem.
  - unfold rstrip. now rewrite rev_involutive, lstrip_idem.
Qed.

Lemma lstrip_spaces_app (l s : str) :
  forallb isspace l = true -> lstrip (l ++ s) = lstrip s.
Proof.
  induction l as [|c l IH]; simpl; [reflexivity|].
  intros H. apply andb_true_iff in H as [Hc Hl]. rewrite Hc. auto.
Qed.

Lemma lstrip_nonspace_head (s : str) :
  (forall c rest, s = c :: rest -> isspace c = false) -> lstrip s = s.
Proof.
  destruct s as [|c rest]; [reflexivity|]. intros H. simpl.
  now rewrite (H c rest eq_refl).
Qed.

Lemma forallb_isspace_rev (l : str) :
  forallb isspace l = true -> forallb isspace (rev l) = true.
Proof.
  rewrite !forallb_forall. intros H c Hc. apply H. now apply in_rev.
Qed.

(** The only string that is left when a run of whitespace is taken off
    each end of [raw], and that neither starts nor ends with whitespace, is
    [strip raw]. *)
Lemma strip_unique (l t r : str) :
  forallb isspace l = true -> forallb isspace r = true ->
  (forall c rest, t = c :: rest -> isspace c = false) ->
  (forall c init, t = init ++ [c] -> isspace c = false) ->
  strip (l ++ t ++ r) = t.
Proof.
  intros Hl Hr Hhead Hlast. unfold strip, rstrip.
  rewrite lstrip_spaces_app by exact Hl.
  destruct t as [|c rest].
  - simpl app. replace r with (r ++ []) by apply app_nil_r.
    now rewrite lstrip_spaces_app.
  - assert (H1 : lstrip ((c :: rest) ++ r) = (c :: rest) ++ r).
    { simpl. now rewrite (Hhead c rest eq_refl). }
    rewrite H1, rev_app_distr.
    rewrite lstrip_spaces_app by now apply forallb_isspace_rev.
    assert (H2 : lstrip (rev (c :: rest)) = rev (c :: rest)).
    { apply lstrip_nonspace_head. intros x xs Hx. apply (Hlast x (rev xs)).
      rewrite <- (rev_involutive (c :: rest)), Hx. reflexivity. }
    rewrite H2. apply rev_involutive.
Qed.

Lemma strip_head_nonspace (raw : str) (c : char) (rest : str) :
  strip raw = c :: rest -> isspace c = false.
Proof.
  intros H. destruct (strip_spec raw) as (_ & _ & _ & _ & _ & Hfix & _).
  rewrite H in Hfix. simpl in Hfix.
  destruct (isspace c) eqn:E; [|reflexivity].
  pose proof (lstrip_length rest) as Hlen. rewrite Hfix in Hlen.
  simpl in Hlen. lia.
Qed.

Lemma strip_last_nonspace (raw : str) (c : char) (init : str) :
  strip raw = init ++ [c] -> isspace c = false.
Proof.
  intros H. destruct (strip_spec raw) as (_ & _ & _ & _ & _ & _ & Hfix).
  rewrite H in Hfix. unfold rstrip in Hfix.
  rewrite rev_app_distr in Hfix. simpl in Hfix.
  destruct (isspace c) eqn:E; [|reflexivity].
  apply (f_equal (@length char)) in Hfix.
  rewrite length_rev, length_app in Hfix. simpl in Hfix.
  pose proof (lstrip_length (rev init)) as Hlen.
  rewrite length_rev in Hlen. lia.
Qed.

Example isspace_table :
  map isspace [8; 9; 10; 13; 14; 27; 28; 32; 65; 133; 160; 8203]%N
  = [false; true; true; true; false; false; true; true; false; true; true;
     false].
Proof. reflexivity. Qed.

Example strip_example :
  strip (of_string "  Page 1 " ++ [newline]) = of_string "Page 1".
Proof. reflexivity. Qed.

Example split_example :
  split newline (of_string "Iron" ++ [newline] ++ of_string "A" ++ [newline])
  = [of_string "Iron"; of_string "A"; []].
Proof. reflexivity. Qed.

Example basename_example :
  basename (of_string "uploads/a.pdf") = of_string "a.pdf".
Proof. reflexivity. Qed.

(** ** The result and call-log monads *)

Lemma rbind_ok {A C : Type} (r : result A) (k : A -> result C) (c : C) :
  rbind r k = Ok c -> exists a, r = Ok a /\ k a = Ok c.
Proof. destruct r; simpl; [eauto | discriminate]. Qed.

Lemma mapR_ok {A C : Type} (f : A -> result C) (l : list A) (cs : list C) :
  mapR f l = Ok cs -> Forall2 (fun a c => f a = Ok c) l cs.
Proof.
  revert cs. induction l as [|a l IH]; simpl; intros cs H.
  - injection H as <-. constructor.
  - apply rbind_ok in H as (c & Hc & H).
    apply rbind_ok in H as (cs' & Hcs & H). injection H as <-.
    constructor; auto.
Qed.

Lemma mapR_total {A C : Type} (f : A -> result C) (l : list A) (cs : list C) :
  Forall2 (fun a c => f a = Ok c) l cs -> mapR f l = Ok cs.
Proof.
  induction 1 as [|a c l cs Hac _ IH]; simpl; [reflexivity|].
  rewrite Hac. simpl. rewrite IH. reflexivity.
Qed.

Lemma bind_ok {A C : Type} (m : M A) (k : A -> M C) log c log' :
  bind m k log = (Ok c, log') ->
  exists a l1, m log = (Ok a, l1) /\ k a l1 = (Ok c, log').
Proof.
  unfold bind. destruct (m log) as [[a|e] l1]; [eauto | discriminate].
Qed.

Lemma perform_ok {A : Type} (c : call) (r : option A) (e : error) log a log' :
  perform c r e log = (Ok a, log') -> r = Some a /\ log' = log ++ [c].
Proof.
  unfold perform. destruct r; intros H; inversion H; auto.
Qed.

Lemma lift_ok {A : Type} (r : result A) log a log' :
  lift r log = (Ok a, log') -> r = Ok a /\ log' = log.
Proof. unfold lift. intros H; inversion H; auto. Qed.

Lemma ret_ok {A : Type} (x : A) log a log' :
  ret x log = (Ok a, log') -> a = x /\ log' = log.
Proof. unfold ret. intros H; inversion H; auto. Qed.

Ltac invert_run :=
  repeat match goal with
    | H : bind _ _ _ = (Ok _, _) |- _ =>
        let a := fresh "a" in let l := fresh "log" in
        let H1 := fresh "Hrun" in
        apply bind_ok in H as (a & l & H1 & H)
    | H : perform _ _ _ _ = (Ok _, _) |- _ =>
        let H1 := fresh "Hcall" in apply perform_ok in H as (H1 & H); subst
    | H : lift _ _ = (Ok _, _) |- _ =>
        let H1 := fresh "Hres" in apply lift_ok in H as (H1 & H); subst
    | H : ret _ _ = (Ok _, _) |- _ =>
        let H1 := fresh "Hret" in apply ret_ok in H as (H1 & H); subst
    end.

(** ** The sort *)

Lemma filter_none {X : Type} (f : X -> bool) (l : list X) :
  (forall z, In z l -> f z = false) -> filter f l = [].
Proof.
  induction l as [|y l IH]; simpl; intros H; [reflexivity|].
  rewrite (H y) by auto. apply IH. auto.
Qed.

Section SortedFacts.

Variables A K : Type.
Variable ltb : K -> K -> bool.

(** [<] is a strict weak order on the keys, as it is on floats that are
    not NaN. *)
Hypothesis ltb_irrefl : forall a, ltb a a = false.
Hypothesis ltb_trans :
  forall a b c, ltb a b = true -> ltb b c = true -> ltb a c = true.
Hypothesis ltb_negtrans :
  forall a b c, ltb a b = false -> ltb b c = false -> ltb a c = false.

Let item : Type := (K * A)%type.
Let asc (x y : item) : Prop := ltb (fst y) (fst x) = false.
Let desc (x y : item) : Prop := ltb (fst x) (fst y) = false.
Let tie (k : K) (x : item) : bool :=
  negb (ltb (fst x) k) && negb (ltb k (fst x)).

Lemma ltb_asym (a b : K) : ltb a b = true -> ltb b a = false.
Proof.
  intros Hab. destruct (ltb b a) eqn:Hba; [|reflexivity].
  rewrite <- (ltb_irrefl a). symmetry. eauto.
Qed.

Lemma insort_perm (x : item) (l : list item) :
  Permutation (insort ltb x l) (x :: l).
Proof.
  induction l as [|y l IH]; simpl; [reflexivity|].
  destruct (ltb (fst x) (fst y)); [reflexivity|].
  rewrite IH. apply perm_swap.
Qed.

Lemma fold_insort_perm (l acc : list item) :
  Permutation (fold_left (fun acc x => insort ltb x acc) l acc) (acc ++ l).
Proof.
  revert acc. induction l as [|x l IH]; intros acc; simpl.
  - now rewrite app_nil_r.
  - rewrite IH, insort_perm. apply Permutation_middle.
Qed.

Lemma list_sort_perm (reverse : bool) (l : list item) :
  Permutation (list_sort ltb reverse l) l.
Proof.
  unfold list_sort, sort_asc. destruct reverse.
  - rewrite <- Permutation_rev, fold_insort_perm. simpl.
    symmetry. apply Permutation_rev.
  - now rewrite fold_insort_perm.
Qed.

Lemma insort_sorted (x : item) (l : list item) :
  StronglySorted asc l -> StronglySorted asc (insort ltb x l).
Proof.
  induction 1 as [|y l Hl IH Hy]; simpl.
  - repeat constructor.
  - destruct (ltb (fst x) (fst y)) eqn:Hxy.
    + constructor; [constructor; assumption|].
      constructor; [exact (ltb_asym Hxy)|].
      rewrite Forall_forall in Hy |- *. intros z Hz. unfold asc.
      destruct (ltb (fst z) (fst x)) eqn:Hzx; [|reflexivity].
      rewrite <- (Hy z Hz). symmetry. eauto.
    + constructor; [exact IH|].
      rewrite Forall_forall in Hy |- *. intros z Hz.
      apply (Permutation_in _ (insort_perm x l)) in Hz.
      destruct Hz as [<-|Hz]; [exact Hxy | auto].
Qed.

Lemma fold_insort_sorted (l acc : list item) :
  StronglySorted asc acc ->
  StronglySorted asc (fold_left (fun acc x => insort ltb x acc) l acc).
Proof.
  revert acc. induction l as [|x l IH]; intros acc Hacc; simpl; [exact Hacc|].
  apply IH, insort_sorted, Hacc.
Qed.

Lemma StronglySorted_app_single (R : item -> item -> Prop) l x :
  StronglySorted R l -> Forall (fun y => R y x) l ->
  StronglySorted R (l ++ [x]).
Proof.
  induction 1 as [|y l Hl IH Hy]; intros Hx; simpl.
  - repeat constructor.
  - inversion Hx; subst. constructor; [auto|].
    apply Forall_app; split; [exact Hy | repeat constructor; assumption].
Qed.

Lemma StronglySorted_rev (l : list item) :
  StronglySorted asc l -> StronglySorted desc (rev l).
Proof.
  induction 1 as [|y l Hl IH Hy]; simpl; [constructor|].
  apply StronglySorted_app_single; [exact IH|].
  apply Forall_rev. exact Hy.
Qed.

(** With [reverse=True] the decorated list comes out in descending order. *)
Lemma list_sort_descending (l : list item) :
  StronglySorted desc (list_sort ltb true l).
Proof.
  simpl. apply StronglySorted_rev, fold_insort_sorted. constructor.
Qed.

Lemma tie_above (k : K) (x z : item) :
  tie k x = true -> ltb (fst x) (fst z) = true -> tie k z = false.
Proof.
  unfold tie. intros Hx Hxz.
  apply andb_true_iff in Hx as [Hxk Hkx].
  apply negb_true_iff in Hxk, Hkx.
  destruct (ltb k (fst z)) eqn:Hkz; [now rewrite andb_false_r|].
  rewrite (ltb_negtrans Hxk Hkz) in Hxz. discriminate.
Qed.

Lemma insort_stable (k : K) (x : item) (l : list item) :
  StronglySorted asc l ->
  filter (tie k) (insort ltb x l) = filter (tie k) l ++ filter (tie k) [x].
Proof.
  induction 1 as [|y l Hl IH Hy]; [reflexivity|].
  simpl insort. destruct (ltb (fst x) (fst y)) eqn:Hxy.
  - change (x :: y :: l) with ([x] ++ y :: l). rewrite filter_app.
    assert (Hx1 : filter (tie k) [x] = if tie k x then [x] else [])
      by reflexivity.
    rewrite Hx1. destruct (tie k x) eqn:Hx.
    + assert (Hnone : filter (tie k) (y :: l) = []).
      { apply filter_none. intros z Hz. apply tie_above with (x := x); [exact Hx|].
        destruct Hz as [<-|Hz]; [exact Hxy|].
        rewrite Forall_forall in Hy. specialize (Hy z Hz). unfold asc in Hy.
        destruct (ltb (fst x) (fst z)) eqn:Hxz; [reflexivity|].
        rewrite (ltb_negtrans Hxz Hy) in Hxy. discriminate. }
      rewrite Hnone. reflexivity.
    + simpl. now rewrite app_nil_r.
  - simpl filter at 1 2. destruct (tie k y); rewrite IH; reflexivity.
Qed.

Lemma fold_insort_stable (k : K) (l acc : list item) :
  StronglySorted asc acc ->
  filter (tie k) (fold_left (fun acc x => insort ltb x acc) l acc)
  = filter (tie k) acc ++ filter (tie k) l.
Proof.
  revert acc. induction l as [|x l IH]; intros acc Hacc; simpl fold_left.
  - simpl. now rewrite app_nil_r.
  - rewrite IH by (apply insort_sorted, Hacc).
    rewrite insort_stable by exact Hacc.
    rewrite <- app_assoc, <- filter_app. reflexivity.
Qed.

(** Items whose keys tie come out of the sort in their input order, also
    with [reverse=True]. *)
Lemma list_sort_stable (reverse : bool) (k : K) (l : list item) :
  filter (tie k) (list_sort ltb reverse l) = filter (tie k) l.
Proof.
  unfold list_sort, sort_asc. destruct reverse.
  - rewrite filter_rev, fold_insort_stable by constructor. simpl.
    now rewrite filter_rev, rev_involutive.
  - now rewrite fold_insort_stable by constructor.
Qed.

End SortedFacts.

(** ** The segmenter and the pooling loop *)

Lemma In_enumerate_from {X : Type} (d : list X) (n i : nat) (x : X) :
  In (i, x) (combine (seq n (length d)) d) <->
  n <= i /\ nth_error d (i - n) = Some x.
Proof.
  revert n. induction d as [|y d IH]; intros n; simpl.
  - split; [intros [] | intros [_ H]]. destruct (i - n); discriminate.
  - rewrite IH. split.
    + intros [H|[Hle H]].
      * injection H as <- <-. rewrite Nat.sub_diag. auto.
      * split; [lia|]. replace (i - n) with (S (i - S n)) by lia. exact H.
    + intros [Hle H]. destruct (i - n) as [|m] eqn:E; simpl in H.
      * left. injection H as <-. f_equal. lia.
      * right. split; [lia|]. replace (i - S n) with m by lia. exact H.
Qed.

Lemma In_enumerate {X : Type} (d : list X) (i : nat) (x : X) :
  In (i, x) (enumerate d) <-> nth_error d i = Some x.
Proof.
  unfold enumerate. rewrite In_enumerate_from, Nat.sub_0_r.
  split; [tauto | intros H; split; [lia | exact H]].
Qed.

Section SegmenterFacts.

Variable B : backend.

Lemma In_page_sections (path : str) (i : nat) (blocks : fitz_page)
      (c : candidate B) :
  In c (page_sections B path i blocks) <->
  exists b, In b blocks /\ 30 <= length (strip (b4 b))
            /\ c = Candidate (basename path) (i + 1) (strip (b4 b)) None.
Proof.
  unfold page_sections. rewrite in_flat_map. split.
  - intros (b & Hb & Hc). exists b.
    destruct (Nat.leb_spec 30 (length (strip (b4 b)))) as [Hle|Hlt].
    + destruct Hc as [<-|[]]. auto.
    + destruct Hc.
  - intros (b & Hb & Hle & ->). exists b. split; [exact Hb|].
    apply Nat.leb_le in Hle. rewrite Hle. now left.
Qed.

Lemma In_doc_sections (path : str) (d : fitz_document) (c : candidate B) :
  In c (doc_sections B path d) <->
  exists i pg b,
    nth_error d i = Some pg /\ In b pg /\ 30 <= length (strip (b4 b))
    /\ c = Candidate (basename path) (i + 1) (strip (b4 b)) None.
Proof.
  unfold doc_sections. rewrite in_flat_map. split.
  - intros ([i pg] & Hip & Hc). apply In_enumerate in Hip.
    apply In_page_sections in Hc as (b & Hb & Hle & ->).
    exists i, pg, b. auto.
  - intros (i & pg & b & Hpg & Hb & Hle & ->). exists (i, pg).
    split; [now apply In_enumerate|].
    apply In_page_sections. exists b. auto.
Qed.

Lemma page_sections_length (path : str) (i : nat) (blocks : fitz_page) :
  length (page_sections B path i blocks) = length (filter qualifies blocks).
Proof.
  unfold page_sections, qualifies. cbv zeta.
  induction blocks as [|b bs IH]; [reflexivity|].
  cbn [flat_map filter].
  destruct (30 <=? length (strip (b4 b))); cbn [app length]; now rewrite IH.
Qed.

Lemma doc_sections_length (path : str) (d : fitz_document) :
  length (doc_sections B path d) = length (filter qualifies (concat d)).
Proof.
  unfold doc_sections, enumerate. generalize 0 as n.
  induction d as [|pg d IH]; intros n; simpl; [reflexivity|].
  rewrite length_app, filter_app, length_app, page_sections_length, IH.
  reflexivity.
Qed.

Lemma pool_of_length (paths : list str) (ds : list fitz_document) :
  opens B paths ds -> length (pool_of B paths ds) = qualifying_count ds.
Proof.
  unfold pool_of, qualifying_count.
  induction 1 as [|p d paths ds _ _ IH]; simpl; [reflexivity|].
  now rewrite length_app, doc_sections_length, IH.
Qed.

Lemma In_pool_of (paths : list str) (ds : list fitz_document) (c : candidate B) :
  opens B paths ds -> In c (pool_of B paths ds) ->
  exists path d, In path paths /\ fitz_open B path = Some d
                 /\ In c (doc_sections B path d).
Proof.
  unfold pool_of. induction 1 as [|p d paths ds Hp _ IH]; simpl; [tauto|].
  rewrite in_app_iff. intros [Hc|Hc].
  - exists p, d. auto.
  - destruct (IH Hc) as (path & d' & Hin & Hop & Hd). exists path, d'. auto.
Qed.

Lemma pool_of_unscored (paths : list str) (ds : list fitz_document)
      (c : candidate B) :
  In c (pool_of B paths ds) -> score c = None.
Proof.
  unfold pool_of. rewrite in_flat_map. intros ([p d] & _ & Hc).
  apply In_doc_sections in Hc as (i & pg & b & _ & _ & _ & ->). reflexivity.
Qed.

Lemma collect_sections_ok (paths : list str) (acc pool : list (candidate B))
      log log' :
  collect_sections paths acc log = (Ok pool, log') ->
  exists ds, opens B paths ds
             /\ pool = acc ++ pool_of B paths ds
             /\ log' = log ++ map CallOpen paths.
Proof.
  revert acc log. induction paths as [|p paths IH]; intros acc log H; simpl in H.
  - invert_run. exists []. repeat split; [constructor | | ];
      now rewrite app_nil_r.
  - unfold get_sections_from_pdf in H. invert_run.
    apply IH in H as (ds & Hds & -> & ->).
    exists (a0 :: ds). repeat split.
    + constructor; assumption.
    + unfold pool_of. simpl. now rewrite app_assoc.
    + simpl. now rewrite <- app_assoc.
Qed.

Lemma collect_sections_opens (paths : list str) (ds : list fitz_document)
      (acc : list (candidate B)) log :
  opens B paths ds ->
  collect_sections paths acc log
  = (Ok (acc ++ pool_of B paths ds), log ++ map CallOpen paths).
Proof.
  intros H. revert acc log.
  induction H as [|p d paths ds Hp _ IH]; intros acc log; simpl.
  - unfold ret, pool_of. simpl. now rewrite !app_nil_r.
  - unfold get_sections_from_pdf, bind, perform, ret. rewrite Hp.
    rewrite IH. unfold pool_of. simpl. now rewrite <- !app_assoc.
Qed.

End SegmenterFacts.

(** ** The scorer *)

Lemma Forall2_nth_error_l {X Y : Type} (R : X -> Y -> Prop) l l' i x :
  Forall2 R l l' -> nth_error l i = Some x ->
  exists y, nth_error l' i = Some y /\ R x y.
Proof.
  intros H. revert i. induction H as [|a b l l' Hab _ IH]; intros i Hi.
  - destruct i; discriminate.
  - destruct i as [|i]; simpl in *; [injection Hi as <-; eauto | auto].
Qed.

Lemma Forall2_In_r {X Y : Type} (R : X -> Y -> Prop) l l' y :
  Forall2 R l l' -> In y l' -> exists x, In x l /\ R x y.
Proof.
  induction 1 as [|a b l l' Hab _ IH]; simpl; [tauto|].
  intros [<-|Hy]; [eauto|]. destruct (IH Hy) as (x & Hx & Hxy). eauto.
Qed.

Lemma nth_error_enumerate_from {X : Type} (l : list X) (n i : nat) (x : X) :
  nth_error l i = Some x ->
  nth_error (combine (seq n (length l)) l) i = Some (n + i, x).
Proof.
  revert n i. induction l as [|y l IH]; intros n [|i] H; simpl in *;
    try discriminate.
  - injection H as <-. now rewrite Nat.add_0_r.
  - rewrite (IH (S n) i H). f_equal. f_equal. lia.
Qed.

Lemma StronglySorted_map_in {X Y : Type} (R : X -> X -> Prop)
      (R' : Y -> Y -> Prop) (f : X -> Y) (l : list X) :
  (forall x y, In x l -> In y l -> R x y -> R' (f x) (f y)) ->
  StronglySorted R l -> StronglySorted R' (map f l).
Proof.
  intros Hf H. induction H as [|a l Hl IH Ha]; simpl; [constructor|].
  constructor.
  - apply IH. intros x y Hx Hy. apply Hf; now right.
  - apply Forall_map. rewrite Forall_forall in Ha |- *.
    intros y Hy. apply Hf; [now left | now right | auto].
Qed.

Section ScorerFacts.

Variable B : backend.

Lemma same_source_refl (t : candidate B) : same_source t t.
Proof. repeat split. Qed.

Lemma assign_scores_same_source (scores : list (float B))
      (texts texts' : list (candidate B)) :
  assign_scores texts scores = Ok texts' -> Forall2 same_source texts texts'.
Proof.
  revert texts texts'. induction scores as [|s scores IH]; intros texts texts' H.
  - destruct texts; simpl in H; injection H as <-.
    + constructor.
    + clear. generalize (c :: texts). intros l.
      induction l; constructor; auto using same_source_refl.
  - destruct texts as [|t texts]; simpl in H; [discriminate|].
    apply rbind_ok in H as (rest & Hrest & H). injection H as <-.
    constructor; [repeat split | eauto].
Qed.

Lemma assign_scores_total (texts : list (candidate B))
      (scores : list (float B)) :
  length scores = length texts ->
  exists texts',
    assign_scores texts scores = Ok texts'
    /\ Forall2 same_source texts texts'
    /\ Forall2 (fun t' s => score t' = Some s) texts' scores.
Proof.
  revert texts. induction scores as [|s scores IH]; intros [|t texts] Hlen;
    simpl in Hlen; try discriminate.
  - exists []. repeat split; constructor.
  - injection Hlen as Hlen. destruct (IH texts Hlen) as (rest & Hr & Hs & Hk).
    exists (set_score t s :: rest). simpl. rewrite Hr. simpl.
    repeat split; constructor; auto. repeat split.
Qed.

Lemma get_score_keys (items : list (candidate B)) (keys : list (float B)) :
  mapR get_score items = Ok keys ->
  map snd (combine keys items) = items
  /\ forall x, In x (combine keys items) -> score (snd x) = Some (fst x).
Proof.
  intros H. apply mapR_ok in H.
  induction H as [|c k items keys Hck _ [IH1 IH2]]; simpl.
  - split; [reflexivity | tauto].
  - split; [now rewrite IH1|]. intros x [<-|Hx]; [|auto]. simpl.
    unfold get_score in Hck. destruct (score c); congruence.
Qed.

Lemma sorted_ok (items out : list (candidate B)) :
  sorted (@flt B) items get_score true = Ok out ->
  exists keys,
    mapR get_score items = Ok keys
    /\ out = map snd (list_sort (@flt B) true (combine keys items)).
Proof.
  unfold sorted. intros H. apply rbind_ok in H as (keys & Hk & H).
  injection H as <-. eauto.
Qed.

Lemma sorted_perm (items out : list (candidate B)) :
  sorted (@flt B) items get_score true = Ok out -> Permutation out items.
Proof.
  intros H. apply sorted_ok in H as (keys & Hk & ->).
  destruct (get_score_keys _ Hk) as [Hsnd _].
  rewrite <- Hsnd at 2. apply Permutation_map, list_sort_perm.
Qed.

Lemma sorted_total (items : list (candidate B)) :
  (forall c, In c items -> score c <> None) ->
  exists out, sorted (@flt B) items get_score true = Ok out.
Proof.
  intros Hall. unfold sorted.
  assert (H : exists keys, mapR get_score items = Ok keys).
  { induction items as [|c items IH]; simpl; [eauto|].
    destruct IH as [keys Hk]; [intros; apply Hall; now right|].
    unfold get_score at 1. destruct (score c) as [k|] eqn:E.
    - simpl. rewrite Hk. simpl. eauto.
    - exfalso. apply (Hall c); [now left | exact E]. }
  destruct H as [keys ->]. simpl. eauto.
Qed.

Lemma assign_scores_unscored (scores : list (float B))
      (texts scored : list (candidate B)) :
  assign_scores texts scores = Ok scored ->
  (forall t, In t texts -> score t = None) ->
  (forall c, In c scored -> score c <> None) ->
  Forall2 (fun c s => score c = Some s) scored scores.
Proof.
  revert texts scored.
  induction scores as [|s scores IH]; intros texts scored H Hnone Hsome.
  - destruct texts as [|t texts]; simpl in H; injection H as <-.
    + constructor.
    + exfalso. apply (Hsome t); [now left | apply Hnone; now left].
  - destruct texts as [|t texts]; simpl in H; [discriminate|].
    apply rbind_ok in H as (rest & Hrest & H). injection H as <-.
    constructor; [reflexivity|].
    apply (IH texts rest Hrest).
    + intros; apply Hnone; now right.
    + intros; apply Hsome; now right.
Qed.

Lemma sorted_keys_present (items out : list (candidate B)) (c : candidate B) :
  sorted (@flt B) items get_score true = Ok out ->
  In c items -> score c <> None.
Proof.
  intros H Hc. apply sorted_ok in H as (keys & Hk & _).
  apply mapR_ok in Hk. apply Forall2_flip in Hk.
  induction Hk as [|k x keys items Hkx _ IH]; [destruct Hc|].
  destruct Hc as [<-|Hc]; [|auto].
  unfold get_score in Hkx. destruct (score x); [discriminate|discriminate].
Qed.

Hypothesis Hord : float_order B.

Lemma sorted_descending (items out : list (candidate B)) :
  sorted (@flt B) items get_score true = Ok out -> descending out.
Proof.
  intros H. apply sorted_ok in H as (keys & Hk & ->).
  destruct (get_score_keys _ Hk) as [_ Hkeys].
  unfold descending.
  apply StronglySorted_map_in
    with (R := fun x y => flt B (fst x) (fst y) = false).
  - intros x y Hx Hy Hxy.
    apply (Permutation_in _ (list_sort_perm (@flt B) true _)) in Hx, Hy.
    unfold score_ltb. now rewrite (Hkeys x Hx), (Hkeys y Hy).
  - destruct Hord. now apply list_sort_descending.
Qed.

Lemma sorted_stable (items out : list (candidate B)) (k : float B) :
  sorted (@flt B) items get_score true = Ok out ->
  filter (ties_with k) out = filter (ties_with k) items.
Proof.
  intros H. apply sorted_ok in H as (keys & Hk & ->).
  destruct (get_score_keys _ Hk) as [Hsnd Hkeys].
  assert (Hmap : forall l : list (float B * candidate B),
             (forall x, In x l -> score (snd x) = Some (fst x)) ->
             filter (ties_with k) (map snd l)
             = map snd (filter (fun x => negb (flt B (fst x) k)
                                         && negb (flt B k (fst x))) l)).
  { induction l as [|x l IH]; intros Hl; simpl; [reflexivity|].
    unfold ties_with at 1. rewrite (Hl x) by now left.
    destruct (negb (flt B (fst x) k) && negb (flt B k (fst x)));
      simpl; rewrite IH; auto; intros; apply Hl; now right. }
  rewrite Hmap.
  - destruct Hord. rewrite list_sort_stable by assumption.
    rewrite <- Hmap by exact Hkeys. now rewrite Hsnd.
  - intros x Hx. apply Hkeys.
    now apply (Permutation_in _ (list_sort_perm (@flt B) true _)).
Qed.

End ScorerFacts.

(** ** The pipeline *)

Section PipelineFacts.

Variable B : backend.

Lemma score_relevance_ok (texts out : list (candidate B)) query log log' :
  score_relevance texts query log = (Ok out, log') ->
  exists embs qe scored,
    encode_batch B (map text texts) = Some embs
    /\ encode_query B query = Some qe
    /\ assign_scores texts (map (cos_sim B qe) embs) = Ok scored
    /\ sorted (@flt B) scored get_score true = Ok out
    /\ log' = log ++ [CallEncodeBatch (map text texts); CallEncodeQuery query].
Proof.
  unfold score_relevance. intros H. invert_run.
  exists a, a0, a1. repeat split; auto. now rewrite <- app_assoc.
Qed.

Lemma score_relevance_length (texts out : list (candidate B)) query log log' :
  score_relevance texts query log = (Ok out, log') ->
  length out = length texts.
Proof.
  intros H. apply score_relevance_ok in H
    as (embs & qe & scored & _ & _ & Ha & Hs & _).
  apply sorted_perm, Permutation_length in Hs.
  apply assign_scores_same_source, Forall2_length in Ha. congruence.
Qed.

Lemma score_relevance_source (texts out : list (candidate B)) query log log' s :
  score_relevance texts query log = (Ok out, log') -> In s out ->
  exists t, In t texts /\ same_source t s.
Proof.
  intros H Hs. apply score_relevance_ok in H
    as (embs & qe & scored & _ & _ & Ha & Hso & _).
  apply sorted_perm in Hso. apply (Permutation_in _ Hso) in Hs.
  apply assign_scores_same_source in Ha.
  exact (Forall2_In_r s Ha Hs).
Qed.

Lemma process_documents_ok paths persona job timestamp log log'
      (r : report B) :
  process_documents B paths persona job timestamp log = (Ok r, log') ->
  exists ds ranked,
    opens B paths ds
    /\ score_relevance (pool_of B paths ds) (full_query persona job)
         (log ++ map CallOpen paths) = (Ok ranked, log')
    /\ mapR section_of (enumerate (firstn 10 ranked))
       = Ok (extracted_sections r)
    /\ subsection_analysis r = map subsection_of (firstn 10 ranked)
    /\ metadata r = Metadata (map basename paths) persona job timestamp.
Proof.
  unfold process_documents. intros H. invert_run.
  apply collect_sections_ok in Hrun as (ds & Hds & -> & ->).
  exists ds, a0. cbn [metadata extracted_sections subsection_analysis].
  auto.
Qed.

Lemma sections_of_enumerate (l : list (candidate B))
      (es : list (section_entry B)) :
  mapR section_of (enumerate l) = Ok es ->
  length es = length l
  /\ forall i e, nth_error es i = Some e ->
       exists s, nth_error l i = Some s /\ section_of (i, s) = Ok e.
Proof.
  intros H. apply mapR_ok in H.
  assert (Hlen : length es = length l).
  { apply Forall2_length in H. unfold enumerate in H.
    rewrite length_combine, length_seq, Nat.min_id in H. auto. }
  split; [exact Hlen|]. intros i e He.
  assert (Hi : i < length l).
  { rewrite <- Hlen. apply nth_error_Some. congruence. }
  destruct (nth_error l i) as [s|] eqn:Hs;
    [|apply nth_error_None in Hs; lia].
  exists s. split; [reflexivity|].
  pose proof (nth_error_enumerate_from l 0 i Hs) as Hn.
  destruct (Forall2_nth_error_l _ H Hn) as (e' & He' & Hok).
  assert (e' = e) by congruence. subst e'. exact Hok.
Qed.

(** Every entry of the report comes from the candidate at the same position
    of the ranking, and both sequences are as long as the top ten. *)
Lemma process_documents_entries paths persona job timestamp log log'
      (r : report B) :
  process_documents B paths persona job timestamp log = (Ok r, log') ->
  exists ds ranked,
    opens B paths ds
    /\ score_relevance (pool_of B paths ds) (full_query persona job)
         (log ++ map CallOpen paths) = (Ok ranked, log')
    /\ length (extracted_sections r) = Nat.min 10 (length ranked)
    /\ length (subsection_analysis r) = Nat.min 10 (length ranked)
    /\ forall i e, nth_error (extracted_sections r) i = Some e ->
         exists s, nth_error ranked i = Some s
                   /\ section_of (i, s) = Ok e
                   /\ nth_error (subsection_analysis r) i
                      = Some (subsection_of s).
Proof.
  intros H. apply process_documents_ok in H
    as (ds & ranked & Hds & Hrun & Hes & Hsub & _).
  apply sections_of_enumerate in Hes as [Hlen Hes].
  exists ds, ranked. repeat split; auto.
  - now rewrite Hlen, length_firstn.
  - now rewrite Hsub, length_map, length_firstn.
  - intros i e He. destruct (Hes i e He) as (s & Hs & Hok).
    exists s. repeat split; auto.
    + rewrite nth_error_firstn in Hs. destruct (i <? 10); congruence.
    + rewrite Hsub. now apply map_nth_error.
Qed.

Lemma section_of_ok (i : nat) (s : candidate B) (e : section_entry B) :
  section_of (i, s) = Ok e ->
  exists sc, score s = Some sc
    /\ section_title e = slice_to 50 (hd [] (split newline (text s)))
    /\ importance_rank e = i + 1
    /\ score_ e = round4 B sc.
Proof.
  unfold section_of, get_score. destruct (score s) as [sc|]; simpl;
    [|discriminate].
  intros H. injection H as <-. exists sc. auto.
Qed.

Lemma mapR_total_in {X Y : Type} (f : X -> result Y) (l : list X) :
  (forall a, In a l -> exists b, f a = Ok b) -> exists bs, mapR f l = Ok bs.
Proof.
  induction l as [|a l IH]; intros H; simpl; [eauto|].
  destruct (H a) as [b Hb]; [now left|].
  destruct IH as [bs Hbs]; [intros; apply H; now right|].
  rewrite Hb, Hbs. simpl. eauto.
Qed.

(** The scorer returns whenever the model does and hands back one vector
    per candidate. *)
Lemma score_relevance_returns (texts : list (candidate B)) query log embs qe :
  encode_batch B (map text texts) = Some embs ->
  length embs = length texts ->
  encode_query B query = Some qe ->
  exists scored out,
    score_relevance texts query log
    = (Ok out,
       log ++ [CallEncodeBatch (map text texts); CallEncodeQuery query])
    /\ Forall2 same_source texts scored
    /\ Forall2 (fun t' e => score t' = Some (cos_sim B qe e)) scored embs
    /\ sorted (@flt B) scored get_score true = Ok out.
Proof.
  intros Hembs Hlen Hq.
  destruct (@assign_scores_total B texts (map (cos_sim B qe) embs))
    as (scored & Hassign & Hsrc & Hsc); [now rewrite length_map|].
  destruct (@sorted_total B scored) as [out Hout].
  { intros c Hc. apply Forall2_flip in Hsc.
    destruct (Forall2_In_r c Hsc Hc) as (s & _ & ->). discriminate. }
  exists scored, out. repeat split.
  - unfold score_relevance, bind, perform, lift.
    rewrite Hembs, Hq, Hassign, Hout. now rewrite <- app_assoc.
  - exact Hsrc.
  - clear -Hsc. remember (map (cos_sim B qe) embs) as scores eqn:E.
    revert embs E. induction Hsc as [|t s scored scores Hts _ IH];
      intros [|e embs] E; simpl in E; try discriminate; constructor.
    + injection E as -> _. exact Hts.
    + injection E as _ E. auto.
  - exact Hout.
Qed.

(** The pipeline returns a report whenever every path opens and the model
    hands back one vector per pooled candidate and one for the query. *)
Lemma process_documents_returns paths ds persona job timestamp log embs qe :
  opens B paths ds ->
  encode_batch B (map text (pool_of B paths ds)) = Some embs ->
  length embs = length (pool_of B paths ds) ->
  encode_query B (full_query persona job) = Some qe ->
  exists r,
    process_documents B paths persona job timestamp log
    = (Ok r,
       (log ++ map CallOpen paths)
       ++ [CallEncodeBatch (map text (pool_of B paths ds));
           CallEncodeQuery (full_query persona job)]).
Proof.
  intros Hds Hembs Hlen Hq.
  destruct (@score_relevance_returns (pool_of B paths ds) _
              (log ++ map CallOpen paths) _ _ Hembs Hlen Hq)
    as (scored & out & Hrun & _ & Hsc & Hout).
  destruct (@mapR_total_in _ _ (@section_of B) (enumerate (firstn 10 out)))
    as [es Hes].
  { intros [i s] His. apply In_enumerate, nth_error_In in His.
    assert (His' : In s out)
      by (rewrite <- (firstn_skipn 10 out); apply in_or_app; now left).
    clear His. rename His' into His. apply sorted_perm in Hout.
    apply (Permutation_in _ Hout) in His. apply Forall2_flip in Hsc.
    destruct (Forall2_In_r s Hsc His) as (e & _ & Hs).
    unfold section_of, get_score. rewrite Hs. simpl. eauto. }
  eexists. unfold process_documents, bind.
  rewrite (collect_sections_opens [] log Hds). simpl app.
  rewrite Hrun. unfold lift. rewrite Hes. unfold ret. reflexivity.
Qed.

(** Every field of the two entries built from the candidate [s] at
    position [i]. *)
Lemma section_of_entry (i : nat) (s : candidate B) (e : section_entry B) :
  section_of (i, s) = Ok e ->
  exists sc first rest,
    score s = Some sc
    /\ document e = doc s /\ page_ e = page s
    /\ text s = first ++ rest /\ ~ In newline first
    /\ (rest = [] \/ exists rest', rest = newline :: rest')
    /\ section_title e = firstn 50 first
    /\ importance_rank e = i + 1
    /\ score_ e = round4 B sc.
Proof.
  unfold section_of, get_score. destruct (score s) as [sc|]; simpl;
    [|discriminate].
  intros H. injection H as <-.
  destruct (split_hd_spec newline (text s)) as (rest & Htext & Hno & Hrest).
  exists sc, (hd [] (split newline (text s))), rest.
  split; [reflexivity|]. split; [reflexivity|]. split; [reflexivity|].
  split; [exact Htext|]. split; [exact Hno|]. split; [exact Hrest|].
  split; [reflexivity|]. split; reflexivity.
Qed.

End PipelineFacts.

(** ** The fake deployment satisfies the assumptions on floats *)

Lemma fake_float_order : float_order Fake.deployment.
Proof.
  constructor; simpl; intros.
  - apply Z.ltb_irrefl.
  - rewrite Z.ltb_lt in *. lia.
  - rewrite Z.ltb_ge in *. lia.
Qed.

Lemma fake_round4_monotone : round4_monotone Fake.deployment.
Proof.
  intros a b. simpl. unfold Fake.round_to_hundreds. rewrite !Z.ltb_ge.
  intros Hba. apply Z.mul_le_mono_nonneg_l; [lia|].
  apply Z.div_le_mono; lia.
Qed.

(** * The report *)

(** C1: in every report of [process_documents], [extracted_sections] and
    [subsection_analysis] have the same length, the smaller of 10 and the
    number of qualifying blocks of all the opened documents, and the
    entries at position [i] of both come from one candidate, the one at
    position [i] of the ranking returned by [score_relevance] on the pool:
    both carry its document and its page, the title is cut from its text,
    the score is its rounded score, the rank is [i + 1] and the refined
    text is the start of its text. *)
Theorem report_sections_aligned (B : backend) paths persona job timestamp
        log log' (r : report B) :
  process_documents B paths persona job timestamp log = (Ok r, log') ->
  exists ds ranked,
    opens B paths ds
    /\ score_relevance (pool_of B paths ds) (full_query persona job)
         (log ++ map CallOpen paths) = (Ok ranked, log')
    /\ length (extracted_sections r) = Nat.min 10 (qualifying_count ds)
    /\ length (subsection_analysis r) = Nat.min 10 (qualifying_count ds)
    /\ forall i, i < Nat.min 10 (qualifying_count ds) ->
         exists s sc e sub first rest,
           nth_error ranked i = Some s
           /\ score s = Some sc
           /\ nth_error (extracted_sections r) i = Some e
           /\ nth_error (subsection_analysis r) i = Some sub
           /\ document e = doc s /\ page_ e = page s
           /\ sub_document sub = doc s /\ sub_page sub = page s
           /\ text s = first ++ rest /\ ~ In newline first
           /\ (rest = [] \/ exists rest', rest = newline :: rest')
           /\ section_title e = firstn 50 first
           /\ importance_rank e = i + 1
           /\ score_ e = round4 B sc
           /\ refined_text sub = firstn 300 (text s).
Proof.
  intros H. apply process_documents_entries in H
    as (ds & ranked & Hds & Hrun & Hlen1 & Hlen2 & Hent).
  assert (Hcount : length ranked = qualifying_count ds).
  { rewrite (score_relevance_length _ _ _ Hrun). now apply pool_of_length. }
  rewrite Hcount in Hlen1, Hlen2.
  exists ds, ranked.
  split; [exact Hds|]. split; [exact Hrun|]. split; [exact Hlen1|].
  split; [exact Hlen2|]. intros i Hi.
  destruct (nth_error (extracted_sections r) i) as [e|] eqn:He;
    [|apply nth_error_None in He; lia].
  destruct (Hent i e He) as (s & Hs & Hok & Hsub).
  destruct (section_of_entry _ _ Hok)
    as (sc & first & rest & Hsc & Hdoc & Hpage & Htext & Hno & Hrest
        & Htitle & Hrank & Hscore).
  exists s, sc, e, (subsection_of s), first, rest.
  split; [exact Hs|]. split; [exact Hsc|]. split; [reflexivity|].
  split; [exact Hsub|]. split; [exact Hdoc|]. split; [exact Hpage|].
  split; [reflexivity|]. split; [reflexivity|]. split; [exact Htext|].
  split; [exact Hno|]. split; [exact Hrest|]. split; [exact Htitle|].
  split; [exact Hrank|]. split; [exact Hscore | reflexivity].
Qed.

Lemma fake_run :
  process_documents Fake.deployment Fake.paths Fake.persona Fake.job
    Fake.timestamp [] = (Ok Fake.outcome, Fake.calls).
Proof. reflexivity. Qed.

Lemma crowded_run :
  process_documents Crowded.deployment [Crowded.path] Fake.persona Fake.job
    Fake.timestamp [] = (Ok Crowded.outcome, Crowded.calls).
Proof. reflexivity. Qed.

Lemma report_sections_aligned_witness :
  qualifying_count [Crowded.doc] = 12
  /\ length (extracted_sections Crowded.outcome) = 10
  /\ exists ds ranked,
      opens Crowded.deployment [Crowded.path] ds
      /\ score_relevance (pool_of Crowded.deployment [Crowded.path] ds)
           (full_query Fake.persona Fake.job)
           ([] ++ map CallOpen [Crowded.path]) = (Ok ranked, Crowded.calls)
      /\ length (extracted_sections Crowded.outcome)
         = Nat.min 10 (qualifying_count ds)
      /\ length (subsection_analysis Crowded.outcome)
         = Nat.min 10 (qualifying_count ds)
      /\ forall i, i < Nat.min 10 (qualifying_count ds) ->
           exists s sc e sub first rest,
             nth_error ranked i = Some s
             /\ score s = Some sc
             /\ nth_error (extracted_sections Crowded.outcome) i = Some e
             /\ nth_error (subsection_analysis Crowded.outcome) i = Some sub
             /\ document e = doc s /\ page_ e = page s
             /\ sub_document sub = doc s /\ sub_page sub = page s
             /\ text s = first ++ rest /\ ~ In newline first
             /\ (rest = [] \/ exists rest', rest = newline :: rest')
             /\ section_title e = firstn 50 first
             /\ importance_rank e = i + 1
             /\ score_ e = round4 Crowded.deployment sc
             /\ refined_text sub = firstn 300 (text s).
Proof.
  split; [reflexivity|]. split; [reflexivity|].
  exact (@report_sections_aligned Crowded.deployment [Crowded.path]
           Fake.persona Fake.job Fake.timestamp [] _ _ crowded_run).
Defined.

(** * The ranking *)

(** C2: when the model returns one vector per candidate, [score_relevance]
    returns the scored candidates sorted by descending score, and the sort
    is stable: for every score [k], the candidates whose score ties with
    [k] come out in the order they had in the input. *)
Theorem score_relevance_descending_stable (B : backend)
        (texts : list (candidate B)) query log embs qe :
  float_order B ->
  encode_batch B (map text texts) = Some embs ->
  length embs = length texts ->
  encode_query B query = Some qe ->
  exists scored out,
    score_relevance texts query log
    = (Ok out,
       log ++ [CallEncodeBatch (map text texts); CallEncodeQuery query])
    /\ Forall2 same_source texts scored
    /\ Forall2 (fun t' e => score t' = Some (cos_sim B qe e)) scored embs
    /\ Permutation scored out
    /\ descending out
    /\ forall k, filter (ties_with k) out = filter (ties_with k) scored.
Proof.
  intros Hord Hembs Hlen Hq.
  destruct (@score_relevance_returns B texts _ log _ _ Hembs Hlen Hq)
    as (scored & out & Hrun & Hsrc & Hsc & Hout).
  exists scored, out.
  split; [exact Hrun|]. split; [exact Hsrc|]. split; [exact Hsc|].
  split; [|split].
  - symmetry. eapply sorted_perm, Hout.
  - eapply sorted_descending; [exact Hord | exact Hout].
  - intros k. eapply sorted_stable; [exact Hord | exact Hout].
Qed.

Lemma score_relevance_descending_stable_witness :
  exists scored out,
    score_relevance Fake.pool Fake.query []
    = (Ok out,
       [] ++ [CallEncodeBatch (map text Fake.pool);
              CallEncodeQuery Fake.query])
    /\ Forall2 same_source Fake.pool scored
    /\ Forall2 (fun (t' : candidate Fake.deployment) e =>
                  score t'
                  = Some (cos_sim Fake.deployment (Fake.embed Fake.query) e))
         scored (map Fake.embed (map text Fake.pool))
    /\ Permutation scored out
    /\ descending out
    /\ forall k, filter (ties_with k) out = filter (ties_with k) scored.
Proof.
  apply (@score_relevance_descending_stable Fake.deployment Fake.pool
           Fake.query [] (map Fake.embed (map text Fake.pool))
           (Fake.embed Fake.query)).
  - exact fake_float_order.
  - reflexivity.
  - reflexivity.
  - reflexivity.
Defined.

(** On the fake deployment two blocks tie at 876,550 millionths; the one
    of [a.pdf], pooled first, is ranked before the one of [c.pdf]. *)
Example fake_ranking_keeps_ties_in_pool_order :
  exists out log',
    score_relevance Fake.pool Fake.query [] = (Ok out, log')
    /\ map (fun c => (doc c, page c, score c)) out
       = [ (of_string "c.pdf", 1, Some 913585%Z);
           (of_string "a.pdf", 1, Some 876550%Z);
           (of_string "c.pdf", 1, Some 876550%Z);
           (of_string "a.pdf", 2, Some 728410%Z) ].
Proof.
  exists (fst (Fake.ranking)), (snd Fake.ranking).
  split; reflexivity.
Qed.

Lemma StronglySorted_nth {X : Type} (R : X -> X -> Prop) (l : list X) i j a b :
  StronglySorted R l -> i < j ->
  nth_error l i = Some a -> nth_error l j = Some b -> R a b.
Proof.
  intros H. revert i j. induction H as [|x l _ IH Hx]; intros i j Hij Hi Hj.
  - destruct i; discriminate.
  - destruct j as [|j]; [lia|]. simpl in Hj. destruct i as [|i]; simpl in Hi.
    + injection Hi as <-. rewrite Forall_forall in Hx.
      eapply Hx, nth_error_In, Hj.
    + apply (IH i j); auto. lia.
Qed.

(** C3: in every report, the entry at 0-based position [i] of
    [extracted_sections] has [importance_rank] [i + 1], and no entry has a
    score below that of a later entry: the score does not increase with the
    rank. *)
Theorem extracted_sections_ranked (B : backend) paths persona job timestamp
        log log' (r : report B) :
  float_order B ->
  round4_monotone B ->
  process_documents B paths persona job timestamp log = (Ok r, log') ->
  (forall i e, nth_error (extracted_sections r) i = Some e ->
               importance_rank e = i + 1)
  /\ (forall i j ei ej,
        i < j ->
        nth_error (extracted_sections r) i = Some ei ->
        nth_error (extracted_sections r) j = Some ej ->
        flt B (score_ ei) (score_ ej) = false).
Proof.
  intros Hord Hround H. apply process_documents_entries in H
    as (ds & ranked & _ & Hrun & _ & _ & Hent).
  split.
  - intros i e He. destruct (Hent i e He) as (s & _ & Hok & _).
    apply section_of_ok in Hok as (sc & _ & _ & Hrank & _). exact Hrank.
  - intros i j ei ej Hij Hi Hj.
    destruct (Hent i ei Hi) as (si & Hsi & Hoki & _).
    destruct (Hent j ej Hj) as (sj & Hsj & Hokj & _).
    apply section_of_ok in Hoki as (ci & Hci & _ & _ & ->).
    apply section_of_ok in Hokj as (cj & Hcj & _ & _ & ->).
    apply Hround.
    apply score_relevance_ok in Hrun as (_ & _ & scored & _ & _ & _ & Hs & _).
    pose proof (sorted_descending Hord _ Hs) as Hdesc.
    pose proof (StronglySorted_nth Hdesc Hij Hsi Hsj) as Hlt.
    unfold score_ltb in Hlt. now rewrite Hci, Hcj in Hlt.
Qed.

Lemma extracted_sections_ranked_witness :
  map (fun e => (importance_rank e, score_ e))
      (extracted_sections Fake.outcome)
  = [(1, 913600%Z); (2, 876600%Z); (3, 876600%Z); (4, 728400%Z)]
  /\ (forall i e, nth_error (extracted_sections Fake.outcome) i = Some e ->
                  importance_rank e = i + 1)
  /\ (forall i j ei ej,
        i < j ->
        nth_error (extracted_sections Fake.outcome) i = Some ei ->
        nth_error (extracted_sections Fake.outcome) j = Some ej ->
        (score_ ei <? score_ ej)%Z = false).
Proof.
  split; [reflexivity|].
  exact (@extracted_sections_ranked Fake.deployment Fake.paths Fake.persona
           Fake.job Fake.timestamp [] _ _ fake_float_order
           fake_round4_monotone fake_run).
Defined.

(** * Empty inputs *)

(** C4, as stated, fails: on the empty candidate sequence the fake
    deployment's [score_relevance] does return the empty sequence, but only
    after calling [model.encode] on the empty batch and on the query. *)
Lemma score_relevance_empty_calls_encode :
  score_relevance (@nil (candidate Fake.deployment)) Fake.query []
  = (Ok [], [CallEncodeBatch []; CallEncodeQuery Fake.query])
  /\ score_relevance (@nil (candidate Fake.deployment)) Fake.query []
     <> (Ok [], []).
Proof.
  assert (H : score_relevance (@nil (candidate Fake.deployment)) Fake.query []
              = (Ok [], [CallEncodeBatch []; CallEncodeQuery Fake.query]))
    by reflexivity.
  split; [exact H | rewrite H; discriminate].
Qed.

(** C4, amended: on the empty candidate sequence [score_relevance] has no
    guard.  It calls [model.encode] on the empty batch and, when that call
    returns, on the query; a failure of either call is the outcome; when
    both return, the outcome is the empty sequence if the batch call
    returned no vector, and an [IndexError] otherwise. *)
Theorem score_relevance_empty (B : backend) query log :
  score_relevance (@nil (candidate B)) query log
  = match encode_batch B [] with
    | None => (Err EncodeError, log ++ [CallEncodeBatch []])
    | Some embs =>
        match encode_query B query with
        | None =>
            (Err EncodeError,
             log ++ [CallEncodeBatch []; CallEncodeQuery query])
        | Some _ =>
            (match embs with [] => Ok [] | _ :: _ => Err IndexError end,
             log ++ [CallEncodeBatch []; CallEncodeQuery query])
        end
    end.
Proof.
  unfold score_relevance, bind, perform, lift. simpl.
  destruct (encode_batch B []) as [embs|]; [|reflexivity].
  destruct (encode_query B query) as [qe|]; rewrite <- app_assoc;
    [|reflexivity].
  destruct embs; reflexivity.
Qed.

(** C5, as stated, fails: the only file given to the fake deployment holds
    no qualifying block, and [process_documents] returns a report, with
    both sequences empty. *)
Lemma process_documents_empty_pool_returns_report :
  qualifying_count [Fake.doc_b] = 0
  /\ process_documents Fake.deployment [Fake.path_b] Fake.persona Fake.job
       Fake.timestamp []
     = (Ok {| metadata := Metadata [of_string "b.pdf"] Fake.persona
                             Fake.job Fake.timestamp;
              extracted_sections := [];
              subsection_analysis := [] |},
        [CallOpen Fake.path_b; CallEncodeBatch [];
         CallEncodeQuery Fake.query]).
Proof. split; reflexivity. Qed.

Lemma pool_of_empty (B : backend) paths ds :
  opens B paths ds -> qualifying_count ds = 0 -> pool_of B paths ds = [].
Proof.
  intros Hds Hcount. apply length_zero_iff_nil.
  now rewrite (pool_of_length Hds).
Qed.

(** C5, amended: when every document opens and none holds a qualifying
    block, [process_documents] raises no error of its own.  It runs the
    scorer on the empty pool: a failure of [model.encode] (on the empty
    batch, then on the query) is the outcome; when both calls return and
    the batch call returned no vector, the outcome is a report with the
    full metadata and two empty sequences. *)
Theorem process_documents_empty_pool (B : backend) paths ds persona job
        timestamp log :
  opens B paths ds ->
  qualifying_count ds = 0 ->
  process_documents B paths persona job timestamp log
  = match encode_batch B [] with
    | None =>
        (Err EncodeError, (log ++ map CallOpen paths) ++ [CallEncodeBatch []])
    | Some embs =>
        match encode_query B (full_query persona job) with
        | None =>
            (Err EncodeError,
             (log ++ map CallOpen paths)
             ++ [CallEncodeBatch [];
                 CallEncodeQuery (full_query persona job)])
        | Some _ =>
            (match embs with
             | [] =>
                 Ok {| metadata := Metadata (map basename paths) persona
                                      job timestamp;
                       extracted_sections := [];
                       subsection_analysis := [] |}
             | _ :: _ => Err IndexError
             end,
             (log ++ map CallOpen paths)
             ++ [CallEncodeBatch [];
                 CallEncodeQuery (full_query persona job)])
        end
    end.
Proof.
  intros Hds Hcount. unfold process_documents, bind at 1.
  rewrite (collect_sections_opens [] log Hds). simpl app.
  rewrite (pool_of_empty Hds Hcount).
  unfold bind at 1. rewrite score_relevance_empty.
  destruct (encode_batch B []) as [embs|]; [|reflexivity].
  destruct (encode_query B (full_query persona job)); [|reflexivity].
  destruct embs; reflexivity.
Qed.

Lemma process_documents_empty_pool_witness :
  opens Fake.deployment [Fake.path_b] [Fake.doc_b]
  /\ qualifying_count [Fake.doc_b] = 0
  /\ process_documents Fake.deployment [Fake.path_b] Fake.persona Fake.job
       Fake.timestamp []
     = (Ok {| metadata := Metadata (map basename [Fake.path_b]) Fake.persona
                             Fake.job Fake.timestamp;
              extracted_sections := [];
              subsection_analysis := [] |},
        ([] ++ map CallOpen [Fake.path_b])
        ++ [CallEncodeBatch [];
            CallEncodeQuery (full_query Fake.persona Fake.job)]).
Proof.
  assert (Hopen : opens Fake.deployment [Fake.path_b] [Fake.doc_b])
    by (repeat constructor).
  assert (Hcount : qualifying_count [Fake.doc_b] = 0) by reflexivity.
  split; [exact Hopen|]. split; [exact Hcount|].
  exact (@process_documents_empty_pool Fake.deployment [Fake.path_b]
           [Fake.doc_b] Fake.persona Fake.job Fake.timestamp []
           Hopen Hcount).
Defined.

(** * The segmenter's filter, seen from the report *)

(** C6: a candidate is pooled exactly for a block whose text, once the
    run of whitespace at each of its ends is taken off, has 30 characters
    or more; the candidate's text is that trimmed text, which neither
    starts nor ends with whitespace.  Every entry of the report comes from
    such a candidate: the texts behind [extracted_sections] and
    [subsection_analysis] are trimmed block texts of 30 characters or
    more. *)
Theorem short_blocks_never_reported (B : backend) paths persona job timestamp
        log log' (r : report B) :
  process_documents B paths persona job timestamp log = (Ok r, log') ->
  exists ds,
    opens B paths ds
    /\ (forall c,
          In c (pool_of B paths ds) <->
          exists path d n pg b l r',
            In (path, d) (combine paths ds)
            /\ nth_error d n = Some pg /\ In b pg
            /\ b4 b = l ++ text c ++ r'
            /\ forallb isspace l = true /\ forallb isspace r' = true
            /\ (forall x rest, text c = x :: rest -> isspace x = false)
            /\ (forall x init, text c = init ++ [x] -> isspace x = false)
            /\ 30 <= length (text c)
            /\ doc c = basename path /\ page c = n + 1 /\ score c = None)
    /\ (forall i e,
          nth_error (extracted_sections r) i = Some e ->
          exists t b l r' sub first rest,
            In t (pool_of B paths ds)
            /\ In b (concat (concat ds))
            /\ b4 b = l ++ text t ++ r'
            /\ forallb isspace l = true /\ forallb isspace r' = true
            /\ (forall x rest', text t = x :: rest' -> isspace x = false)
            /\ (forall x init, text t = init ++ [x] -> isspace x = false)
            /\ 30 <= length (text t)
            /\ document e = doc t /\ page_ e = page t
            /\ text t = first ++ rest /\ ~ In newline first
            /\ (rest = [] \/ exists rest', rest = newline :: rest')
            /\ section_title e = firstn 50 first
            /\ nth_error (subsection_analysis r) i = Some sub
            /\ refined_text sub = firstn 300 (text t)).
Proof.
  intros H. apply process_documents_entries in H
    as (ds & ranked & Hds & Hrun & _ & _ & Hent).
  assert (Hpool : forall c,
             In c (pool_of B paths ds) <->
             exists path d n pg b l r',
               In (path, d) (combine paths ds)
               /\ nth_error d n = Some pg /\ In b pg
               /\ b4 b = l ++ text c ++ r'
               /\ forallb isspace l = true /\ forallb isspace r' = true
               /\ (forall x rest, text c = x :: rest -> isspace x = false)
               /\ (forall x init, text c = init ++ [x] -> isspace x = false)
               /\ 30 <= length (text c)
               /\ doc c = basename path /\ page c = n + 1
               /\ score c = None).
  { intros c. unfold pool_of. rewrite in_flat_map. split.
    - intros ([path d] & Hin & Hc). simpl in Hc.
      apply In_doc_sections in Hc as (n & pg & b & Hpg & Hb & Hle & ->).
      destruct (strip_spec (b4 b)) as (l & r' & Hraw & Hl & Hr & _).
      exists path, d, n, pg, b, l, r'. cbn [text doc page score].
      split; [exact Hin|]. split; [exact Hpg|]. split; [exact Hb|].
      split; [exact Hraw|]. split; [exact Hl|]. split; [exact Hr|].
      split; [intros x rest Hx; eapply strip_head_nonspace, Hx|].
      split; [intros x init Hx; eapply strip_last_nonspace, Hx|].
      split; [exact Hle|]. split; [reflexivity|]. split; reflexivity.
    - intros (path & d & n & pg & b & l & r' & Hin & Hpg & Hb & Hraw & Hl
              & Hr & Hhead & Hlast & Hle & Hdoc & Hpage & Hscore).
      exists (path, d). split; [exact Hin|]. simpl.
      apply In_doc_sections. exists n, pg, b.
      assert (Hstrip : strip (b4 b) = text c)
        by (rewrite Hraw; now apply strip_unique).
      split; [exact Hpg|]. split; [exact Hb|].
      split; [now rewrite Hstrip|].
      destruct c as [cd cp ct cs]. simpl in *. now subst. }
  exists ds. split; [exact Hds|]. split; [exact Hpool|].
  intros i e He. destruct (Hent i e He) as (s & Hs & Hok & Hsub).
  destruct (section_of_entry _ _ Hok)
    as (sc & first & rest & _ & Hdoc & Hpage & Htext & Hno & Hrest & Htitle
        & _).
  apply nth_error_In in Hs.
  destruct (score_relevance_source _ _ _ _ Hrun Hs)
    as (t & Ht & Hd & Hp & Htx).
  destruct (proj1 (Hpool t) Ht)
    as (path & d & n & pg & b & l & r' & Hin & Hpg & Hb & Hraw & Hl & Hr
        & Hhead & Hlast & Hle & _).
  exists t, b, l, r', (subsection_of s), first, rest.
  split; [exact Ht|]. split.
  { apply in_concat. exists pg. split; [|exact Hb].
    apply in_concat. exists d.
    split; [eapply in_combine_r, Hin | eapply nth_error_In, Hpg]. }
  split; [exact Hraw|]. split; [exact Hl|]. split; [exact Hr|].
  split; [exact Hhead|]. split; [exact Hlast|]. split; [exact Hle|].
  split; [congruence|]. split; [congruence|].
  split; [congruence|]. split; [exact Hno|]. split; [exact Hrest|].
  split; [exact Htitle|]. split; [exact Hsub|].
  cbn [refined_text subsection_of]. unfold slice_to. now rewrite Htx.
Qed.

Lemma short_blocks_never_reported_witness :
  strip (of_string
           "  Vegetarian menus rely on legumes, grains and vegetables.  ")
  = of_string "Vegetarian menus rely on legumes, grains and vegetables."
  /\ exists ds,
      opens Fake.deployment Fake.paths ds
      /\ (forall c,
            In c (pool_of Fake.deployment Fake.paths ds) <->
            exists path d n pg b l r',
              In (path, d) (combine Fake.paths ds)
              /\ nth_error d n = Some pg /\ In b pg
              /\ b4 b = l ++ text c ++ r'
              /\ forallb isspace l = true /\ forallb isspace r' = true
              /\ (forall x rest, text c = x :: rest -> isspace x = false)
              /\ (forall x init, text c = init ++ [x] -> isspace x = false)
              /\ 30 <= length (text c)
              /\ doc c = basename path /\ page c = n + 1
              /\ score c = None)
      /\ (forall i e,
            nth_error (extracted_sections Fake.outcome) i = Some e ->
            exists t b l r' sub first rest,
              In t (pool_of Fake.deployment Fake.paths ds)
              /\ In b (concat (concat ds))
              /\ b4 b = l ++ text t ++ r'
              /\ forallb isspace l = true /\ forallb isspace r' = true
              /\ (forall x rest', text t = x :: rest' -> isspace x = false)
              /\ (forall x init, text t = init ++ [x] -> isspace x = false)
              /\ 30 <= length (text t)
              /\ document e = doc t /\ page_ e = page t
              /\ text t = first ++ rest /\ ~ In newline first
              /\ (rest = [] \/ exists rest', rest = newline :: rest')
              /\ section_title e = firstn 50 first
              /\ nth_error (subsection_analysis Fake.outcome) i = Some sub
              /\ refined_text sub = firstn 300 (text t)).
Proof.
  split; [reflexivity|].
  exact (@short_blocks_never_reported Fake.deployment Fake.paths Fake.persona
           Fake.job Fake.timestamp [] _ _ fake_run).
Defined.

(** * Derived fields *)

(** C7: for the candidate [s] at position [i] of the ranking,
    [section_title] is the first 50 characters of the part of [s]'s text
    before its first newline (of the whole text when it has no newline),
    [refined_text] is the first 300 characters of the text, and so they
    have at most 50 and at most 300 characters. *)
Theorem titles_and_refined_texts_truncated (B : backend) paths persona job
        timestamp log log' (r : report B) :
  process_documents B paths persona job timestamp log = (Ok r, log') ->
  exists ds ranked,
    opens B paths ds
    /\ score_relevance (pool_of B paths ds) (full_query persona job)
         (log ++ map CallOpen paths) = (Ok ranked, log')
    /\ forall i e,
         nth_error (extracted_sections r) i = Some e ->
         exists s sub,
           nth_error ranked i = Some s
           /\ nth_error (subsection_analysis r) i = Some sub
           /\ (exists first rest,
                 text s = first ++ rest
                 /\ ~ In newline first
                 /\ (rest = [] \/ exists rest', rest = newline :: rest')
                 /\ section_title e = firstn 50 first)
           /\ (~ In newline (text s) -> section_title e = firstn 50 (text s))
           /\ refined_text sub = firstn 300 (text s)
           /\ length (section_title e) <= 50
           /\ length (refined_text sub) <= 300.
Proof.
  intros H. apply process_documents_entries in H
    as (ds & ranked & Hds & Hrun & _ & _ & Hent).
  exists ds, ranked. split; [exact Hds|]. split; [exact Hrun|].
  intros i e He. destruct (Hent i e He) as (s & Hs & Hok & Hsub).
  apply section_of_ok in Hok as (sc & _ & Htitle & _).
  exists s, (subsection_of s). repeat split; auto.
  - destruct (split_hd_spec newline (text s)) as (rest & Htext & Hno & Hrest).
    exists (hd [] (split newline (text s))), rest. auto.
  - intros Hno. rewrite Htitle. now rewrite split_hd_no_sep.
  - rewrite Htitle. apply slice_to_length.
  - apply slice_to_length.
Qed.

Lemma titles_and_refined_texts_truncated_witness :
  map (fun e => length (section_title e)) (extracted_sections Fake.outcome)
  = [50; 50; 50; 16]
  /\ exists ds ranked,
      opens Fake.deployment Fake.paths ds
      /\ score_relevance (pool_of Fake.deployment Fake.paths ds)
           (full_query Fake.persona Fake.job)
           ([] ++ map CallOpen Fake.paths) = (Ok ranked, Fake.calls)
      /\ forall i e,
           nth_error (extracted_sections Fake.outcome) i = Some e ->
           exists s sub,
             nth_error ranked i = Some s
             /\ nth_error (subsection_analysis Fake.outcome) i = Some sub
             /\ (exists first rest,
                   text s = first ++ rest
                   /\ ~ In newline first
                   /\ (rest = [] \/ exists rest', rest = newline :: rest')
                   /\ section_title e = firstn 50 first)
             /\ (~ In newline (text s) ->
                 section_title e = firstn 50 (text s))
             /\ refined_text sub = firstn 300 (text s)
             /\ length (section_title e) <= 50
             /\ length (refined_text sub) <= 300.
Proof.
  split; [reflexivity|].
  exact (@titles_and_refined_texts_truncated Fake.deployment Fake.paths
           Fake.persona Fake.job Fake.timestamp [] _ _ fake_run).
Defined.

(** * Scores *)

(** The [score] of every entry is [round(_, 4)] of the similarity between
    the query vector and one of the vectors the model returned for the
    pool, and the model returned exactly one vector per pooled candidate. *)
Lemma report_scores_are_rounded_similarities (B : backend) paths persona job
      timestamp log log' (r : report B) :
  process_documents B paths persona job timestamp log = (Ok r, log') ->
  exists ds embs qe,
    opens B paths ds
    /\ encode_batch B (map text (pool_of B paths ds)) = Some embs
    /\ length embs = length (pool_of B paths ds)
    /\ encode_query B (full_query persona job) = Some qe
    /\ forall i e,
         nth_error (extracted_sections r) i = Some e ->
         exists emb, In emb embs
                     /\ score_ e = round4 B (cos_sim B qe emb).
Proof.
  intros H. apply process_documents_entries in H
    as (ds & ranked & Hds & Hrun & _ & _ & Hent).
  apply score_relevance_ok in Hrun
    as (embs & qe & scored & Hembs & Hq & Hassign & Hsorted & _).
  assert (Hsc : Forall2 (fun (c : candidate B) s => score c = Some s) scored
                  (map (cos_sim B qe) embs)).
  { eapply assign_scores_unscored; [exact Hassign | |].
    - intros t Ht. eapply pool_of_unscored, Ht.
    - intros c Hc. eapply sorted_keys_present; [exact Hsorted | exact Hc]. }
  exists ds, embs, qe. repeat split; auto.
  - apply Forall2_length in Hsc.
    apply assign_scores_same_source, Forall2_length in Hassign.
    rewrite length_map in Hsc. congruence.
  - intros i e He. destruct (Hent i e He) as (s & Hs & Hok & _).
    apply section_of_ok in Hok as (sc & Hscore & _ & _ & ->).
    apply nth_error_In in Hs. apply sorted_perm in Hsorted.
    apply (Permutation_in _ Hsorted) in Hs. apply Forall2_flip in Hsc.
    destruct (Forall2_In_r s Hsc Hs) as (k & Hk & Hsk).
    apply in_map_iff in Hk as (emb & <- & Hemb).
    exists emb. split; [exact Hemb | congruence].
Qed.

(** * Metadata *)

Lemma rfind_from_app (c : char) (a b : str) (i last : Z) :
  rfind_from c (a ++ b) i last
  = rfind_from c b (i + Z.of_nat (length a))%Z (rfind_from c a i last).
Proof.
  revert i last. induction a as [|x a IH]; intros i last; simpl length.
  - simpl. now rewrite Z.add_0_r.
  - simpl app. simpl rfind_from. rewrite IH. f_equal. lia.
Qed.

Lemma rfind_from_absent (c : char) (s : str) (i last : Z) :
  ~ In c s -> rfind_from c s i last = last.
Proof.
  revert i last. induction s as [|x s IH]; intros i last Hno; simpl;
    [reflexivity|].
  destruct (N.eqb_spec x c) as [->|_]; [exfalso; apply Hno; now left|].
  apply IH. intros Hin. apply Hno. now right.
Qed.

(** [os.path.basename] drops the directory part of a path. *)
Lemma basename_join (dir name : str) :
  ~ In slash name -> basename (dir ++ slash :: name) = name.
Proof.
  intros Hno. unfold basename, rfind, slice_from.
  rewrite rfind_from_app. simpl rfind_from.
  rewrite rfind_from_absent by exact Hno.
  match goal with
  | |- context [Z.to_nat ?z] =>
      replace (Z.to_nat z) with (length dir + 1) by lia
  end.
  rewrite skipn_app, skipn_all2 by lia.
  replace (length dir + 1 - length dir) with 1 by lia. reflexivity.
Qed.

Lemma basename_plain (name : str) : ~ In slash name -> basename name = name.
Proof.
  intros Hno. unfold basename, rfind, slice_from.
  now rewrite rfind_from_absent by exact Hno.
Qed.

(** C8: [metadata.documents] is the list of the basenames of the input
    paths, in input order and one per path, whatever the documents hold;
    for a path [dir/name] the entry is [name]. *)
Theorem metadata_documents_are_input_basenames (B : backend) paths persona
        job timestamp log log' (r : report B) :
  process_documents B paths persona job timestamp log = (Ok r, log') ->
  documents (metadata r) = map basename paths
  /\ length (documents (metadata r)) = length paths
  /\ (forall i path,
        nth_error paths i = Some path ->
        nth_error (documents (metadata r)) i = Some (basename path))
  /\ (forall i dir name,
        nth_error paths i = Some (dir ++ slash :: name) ->
        ~ In slash name ->
        nth_error (documents (metadata r)) i = Some name).
Proof.
  intros H. apply process_documents_ok in H
    as (ds & ranked & _ & _ & _ & _ & ->). simpl.
  split; [reflexivity|]. split; [apply length_map|]. split.
  - intros i path Hi. now apply map_nth_error.
  - intros i dir name Hi Hno.
    rewrite (map_nth_error basename _ _ Hi). now rewrite basename_join.
Qed.

Lemma metadata_documents_are_input_basenames_witness :
  qualifying_count [Fake.doc_b] = 0
  /\ documents (metadata Fake.outcome)
     = [of_string "a.pdf"; of_string "b.pdf"; of_string "c.pdf"]
  /\ documents (metadata Fake.outcome) = map basename Fake.paths
  /\ length (documents (metadata Fake.outcome)) = length Fake.paths
  /\ (forall i path,
        nth_error Fake.paths i = Some path ->
        nth_error (documents (metadata Fake.outcome)) i
        = Some (basename path))
  /\ (forall i dir name,
        nth_error Fake.paths i = Some (dir ++ slash :: name) ->
        ~ In slash name ->
        nth_error (documents (metadata Fake.outcome)) i = Some name).
Proof.
  split; [reflexivity|]. split; [reflexivity|].
  exact (@metadata_documents_are_input_basenames Fake.deployment Fake.paths
           Fake.persona Fake.job Fake.timestamp [] _ _ fake_run).
Defined.

(** * Prefixes *)

(** C10: at every position of the report, [section_title] is a prefix of
    [refined_text], and [refined_text] is a prefix of the text of the
    candidate at that position of the ranking. *)
Theorem title_prefix_of_refined_text (B : backend) paths persona job
        timestamp log log' (r : report B) :
  process_documents B paths persona job timestamp log = (Ok r, log') ->
  exists ds ranked,
    opens B paths ds
    /\ score_relevance (pool_of B paths ds) (full_query persona job)
         (log ++ map CallOpen paths) = (Ok ranked, log')
    /\ forall i e,
         nth_error (extracted_sections r) i = Some e ->
         exists s sub,
           nth_error ranked i = Some s
           /\ nth_error (subsection_analysis r) i = Some sub
           /\ prefix (section_title e) (refined_text sub)
           /\ prefix (refined_text sub) (text s).
Proof.
  intros H. apply process_documents_entries in H
    as (ds & ranked & Hds & Hrun & _ & _ & Hent).
  exists ds, ranked. split; [exact Hds|]. split; [exact Hrun|].
  intros i e He. destruct (Hent i e He) as (s & Hs & Hok & Hsub).
  apply section_of_ok in Hok as (sc & _ & Htitle & _).
  exists s, (subsection_of s).
  split; [exact Hs|]. split; [exact Hsub|]. split.
  - rewrite Htitle. cbn [refined_text subsection_of].
    apply prefix_into_firstn.
    + apply prefix_trans with (b := hd [] (split newline (text s))).
      * apply prefix_firstn.
      * destruct (split_hd_spec newline (text s)) as (rest & Htext & _).
        exists rest. exact Htext.
    + pose proof (slice_to_length 50 (hd [] (split newline (text s)))). lia.
  - apply prefix_firstn.
Qed.

Lemma title_prefix_of_refined_text_witness :
  exists ds ranked,
    opens Fake.deployment Fake.paths ds
    /\ score_relevance (pool_of Fake.deployment Fake.paths ds)
         (full_query Fake.persona Fake.job)
         ([] ++ map CallOpen Fake.paths) = (Ok ranked, Fake.calls)
    /\ forall i e,
         nth_error (extracted_sections Fake.outcome) i = Some e ->
         exists s sub,
           nth_error ranked i = Some s
           /\ nth_error (subsection_analysis Fake.outcome) i = Some sub
           /\ prefix (section_title e) (refined_text sub)
           /\ prefix (refined_text sub) (text s).
Proof.
  exact (@title_prefix_of_refined_text Fake.deployment Fake.paths
           Fake.persona Fake.job Fake.timestamp [] _ _ fake_run).
Defined.

(** * Further properties of the pipeline *)

(** ** Failures *)

Lemma collect_sections_prefix (B : backend) pre rest ds
      (acc : list (candidate B)) log :
  opens B pre ds ->
  collect_sections (pre ++ rest) acc log
  = collect_sections rest (acc ++ pool_of B pre ds)
      (log ++ map CallOpen pre).
Proof.
  intros H. revert acc log.
  induction H as [|p d pre ds Hp _ IH]; intros acc log; simpl.
  - unfold pool_of. simpl. now rewrite !app_nil_r.
  - unfold get_sections_from_pdf, bind, perform, ret. rewrite Hp.
    rewrite IH. unfold pool_of. simpl. now rewrite <- !app_assoc.
Qed.

(** X1: a path that [fitz.open] refuses aborts the run at that path: the
    outcome is the open error for it, the paths after it are never opened
    and the model is never called. *)
Theorem process_documents_stops_at_unreadable_path (B : backend) pre bad post
        ds persona job timestamp log :
  opens B pre ds ->
  fitz_open B bad = None ->
  process_documents B (pre ++ bad :: post) persona job timestamp log
  = (Err (OpenError bad), log ++ map CallOpen pre ++ [CallOpen bad]).
Proof.
  intros Hpre Hbad. unfold process_documents, bind at 1.
  rewrite (collect_sections_prefix (bad :: post) [] log Hpre).
  simpl collect_sections.
  unfold get_sections_from_pdf, bind, perform. rewrite Hbad.
  now rewrite <- app_assoc.
Qed.

Lemma process_documents_stops_at_unreadable_path_witness :
  opens Fake.deployment [Fake.path_a] [Fake.doc_a]
  /\ fitz_open Fake.deployment Faulty.missing_path = None
  /\ process_documents Fake.deployment
       ([Fake.path_a] ++ Faulty.missing_path :: [Fake.path_c])
       Fake.persona Fake.job Fake.timestamp []
     = (Err (OpenError Faulty.missing_path),
        [] ++ map CallOpen [Fake.path_a] ++ [CallOpen Faulty.missing_path]).
Proof.
  assert (Hopen : opens Fake.deployment [Fake.path_a] [Fake.doc_a])
    by (repeat constructor).
  assert (Hbad : fitz_open Fake.deployment Faulty.missing_path = None)
    by reflexivity.
  split; [exact Hopen|]. split; [exact Hbad|].
  exact (@process_documents_stops_at_unreadable_path Fake.deployment
           [Fake.path_a] Faulty.missing_path [Fake.path_c] [Fake.doc_a]
           Fake.persona Fake.job Fake.timestamp [] Hopen Hbad).
Defined.

(** X2: when every path opens and [model.encode] raises, the run fails
    with the encoder's error and scores nothing; if the batch call is the
    one that raises, the query is never encoded. *)
Theorem process_documents_encoder_failure (B : backend) paths ds persona job
        timestamp log :
  opens B paths ds ->
  encode_batch B (map text (pool_of B paths ds)) = None
  \/ encode_query B (full_query persona job) = None ->
  process_documents B paths persona job timestamp log
  = (Err EncodeError,
     (log ++ map CallOpen paths)
     ++ CallEncodeBatch (map text (pool_of B paths ds))
        :: match encode_batch B (map text (pool_of B paths ds)) with
           | None => []
           | Some _ => [CallEncodeQuery (full_query persona job)]
           end).
Proof.
  intros Hds Hfail. unfold process_documents, bind at 1.
  rewrite (collect_sections_opens [] log Hds). simpl app.
  unfold bind at 1, score_relevance, bind at 1, perform at 1.
  destruct (encode_batch B (map text (pool_of B paths ds))) as [embs|].
  - destruct Hfail as [Hfail|Hfail]; [discriminate|].
    unfold bind at 1, perform. rewrite Hfail. now rewrite <- app_assoc.
  - reflexivity.
Qed.

Lemma process_documents_encoder_failure_witness :
  opens Faulty.no_query Fake.paths Fake.docs
  /\ process_documents Faulty.no_query Fake.paths Fake.persona Fake.job
       Fake.timestamp []
     = (Err EncodeError,
        ([] ++ map CallOpen Fake.paths)
        ++ CallEncodeBatch (map text (pool_of Faulty.no_query Fake.paths
                                        Fake.docs))
           :: match
                encode_batch Faulty.no_query
                  (map text (pool_of Faulty.no_query Fake.paths Fake.docs))
              with
              | None => []
              | Some _ =>
                  [CallEncodeQuery (full_query Fake.persona Fake.job)]
              end).
Proof.
  assert (Hopen : opens Faulty.no_query Fake.paths Fake.docs)
    by (repeat constructor).
  split; [exact Hopen|].
  apply (@process_documents_encoder_failure Faulty.no_query Fake.paths
           Fake.docs Fake.persona Fake.job Fake.timestamp [] Hopen).
  right. reflexivity.
Defined.

Lemma assign_scores_too_many (B : backend) (scores : list (float B))
      (texts : list (candidate B)) :
  length texts < length scores -> assign_scores texts scores = Err IndexError.
Proof.
  revert texts. induction scores as [|s scores IH]; intros texts Hlen;
    simpl in Hlen; [lia|].
  destruct texts as [|t texts]; simpl; [reflexivity|].
  simpl in Hlen. rewrite IH by lia. reflexivity.
Qed.

Lemma assign_scores_too_few (B : backend) (scores : list (float B))
      (texts : list (candidate B)) :
  length scores < length texts ->
  (forall t, In t texts -> score t = None) ->
  exists scored c,
    assign_scores texts scores = Ok scored /\ In c scored /\ score c = None.
Proof.
  revert texts. induction scores as [|s scores IH]; intros texts Hlen Hnone.
  - destruct texts as [|t texts]; simpl in Hlen; [lia|].
    exists (t :: texts), t.
    split; [reflexivity|]. split; [now left | apply Hnone; now left].
  - destruct texts as [|t texts]; simpl in Hlen; [lia|].
    destruct (IH texts) as (rest & c & Hrest & Hc & Hsc); [lia | |].
    + intros; apply Hnone; now right.
    + exists (set_score t s :: rest), c. simpl. rewrite Hrest. simpl. auto.
Qed.

Lemma mapR_get_score_missing (B : backend) (l : list (candidate B)) c :
  In c l -> score c = None -> mapR get_score l = Err KeyError.
Proof.
  intros Hc Hnone. induction l as [|a l IH]; [destruct Hc|]. simpl.
  unfold get_score at 1. destruct (score a) as [k|] eqn:Ha; [|reflexivity].
  destruct Hc as [->|Hc]; [congruence|]. simpl. now rewrite IH.
Qed.

(** X3: when the model hands back a number of vectors other than the
    number of pooled candidates, the run fails after both encode calls:
    with an [IndexError] when there are too many vectors (the loop writes
    past the end of [texts]), with a [KeyError] when there are too few (the
    sort reads the score of a candidate that never got one). *)
Theorem process_documents_vector_count_mismatch (B : backend) paths ds persona
        job timestamp log embs qe :
  opens B paths ds ->
  encode_batch B (map text (pool_of B paths ds)) = Some embs ->
  encode_query B (full_query persona job) = Some qe ->
  length embs <> length (pool_of B paths ds) ->
  process_documents B paths persona job timestamp log
  = (Err (if length (pool_of B paths ds) <? length embs
          then IndexError else KeyError),
     (log ++ map CallOpen paths)
     ++ [CallEncodeBatch (map text (pool_of B paths ds));
         CallEncodeQuery (full_query persona job)]).
Proof.
  intros Hds Hembs Hq Hlen. unfold process_documents, bind at 1.
  rewrite (collect_sections_opens [] log Hds). simpl app.
  unfold bind at 1, score_relevance, bind, perform, lift.
  rewrite Hembs, Hq, <- app_assoc. simpl app.
  destruct (Nat.ltb_spec (length (pool_of B paths ds)) (length embs))
    as [Hmany|Hfew].
  - rewrite assign_scores_too_many by now rewrite length_map.
    reflexivity.
  - destruct (@assign_scores_too_few B (map (cos_sim B qe) embs)
                (pool_of B paths ds)) as (scored & c & -> & Hc & Hnone).
    + rewrite length_map. lia.
    + intros t Ht. eapply pool_of_unscored, Ht.
    + unfold sorted.
      rewrite (@mapR_get_score_missing B scored c Hc Hnone).
      reflexivity.
Qed.

Lemma process_documents_vector_count_mismatch_witness :
  process_documents Faulty.too_few Fake.paths Fake.persona Fake.job
    Fake.timestamp []
  = (Err KeyError,
     ([] ++ map CallOpen Fake.paths)
     ++ [CallEncodeBatch (map text (pool_of Faulty.too_few Fake.paths
                                      Fake.docs));
         CallEncodeQuery (full_query Fake.persona Fake.job)])
  /\ process_documents Faulty.too_many Fake.paths Fake.persona Fake.job
       Fake.timestamp []
     = (Err IndexError,
        ([] ++ map CallOpen Fake.paths)
        ++ [CallEncodeBatch (map text (pool_of Faulty.too_many Fake.paths
                                         Fake.docs));
            CallEncodeQuery (full_query Fake.persona Fake.job)]).
Proof.
  split.
  - refine (@process_documents_vector_count_mismatch Faulty.too_few
              Fake.paths Fake.docs Fake.persona Fake.job Fake.timestamp []
              _ _ _ eq_refl eq_refl _).
    + repeat constructor.
    + apply Nat.eqb_neq. reflexivity.
  - refine (@process_documents_vector_count_mismatch Faulty.too_many
              Fake.paths Fake.docs Fake.persona Fake.job Fake.timestamp []
              _ _ _ eq_refl eq_refl _).
    + repeat constructor.
    + apply Nat.eqb_neq. reflexivity.
Defined.

(** X4: [process_documents] returns a report exactly when every path
    opens, the batch call returns one vector per pooled candidate and the
    query call returns; a run that returns a report consists of one open
    per path, in input order, then one batch call on the pooled texts and
    one query call. *)
Theorem process_documents_returns_iff (B : backend) paths persona job
        timestamp log :
  ((exists r log',
       process_documents B paths persona job timestamp log = (Ok r, log'))
   <->
   (exists ds embs qe,
       opens B paths ds
       /\ encode_batch B (map text (pool_of B paths ds)) = Some embs
       /\ length embs = length (pool_of B paths ds)
       /\ encode_query B (full_query persona job) = Some qe))
  /\ forall r log',
      process_documents B paths persona job timestamp log = (Ok r, log') ->
      exists ds,
        opens B paths ds
        /\ log' = (log ++ map CallOpen paths)
                  ++ [CallEncodeBatch (map text (pool_of B paths ds));
                      CallEncodeQuery (full_query persona job)].
Proof.
  split; [split|].
  - intros (r & log' & Hrun).
    destruct (report_scores_are_rounded_similarities _ _ _ _ _ Hrun)
      as (ds & embs & qe & Hds & Hembs & Hlen & Hq & _).
    exists ds, embs, qe. auto.
  - intros (ds & embs & qe & Hds & Hembs & Hlen & Hq).
    destruct (process_documents_returns persona job timestamp log Hds Hembs
                Hlen Hq) as [r Hrun].
    eauto.
  - intros r log' Hrun. apply process_documents_ok in Hrun
      as (ds & ranked & Hds & Hrun & _).
    apply score_relevance_ok in Hrun as (_ & _ & _ & _ & _ & _ & _ & ->).
    exists ds. auto.
Qed.

Lemma process_documents_returns_iff_witness :
  exists r log',
    process_documents Fake.deployment Fake.paths Fake.persona Fake.job
      Fake.timestamp [] = (Ok r, log').
Proof.
  apply (proj2 (proj1 (@process_documents_returns_iff Fake.deployment
                         Fake.paths Fake.persona Fake.job Fake.timestamp
                         []))).
  exists Fake.docs, (map Fake.embed (map text Fake.pool)),
    (Fake.embed Fake.query).
  split; [repeat constructor|]. split; [reflexivity|].
  split; [reflexivity|]. reflexivity.
Defined.

(** ** Scores and ranks *)

Lemma section_of_fields (B : backend) (i : nat) (s : candidate B)
      (e : section_entry B) :
  section_of (i, s) = Ok e -> document e = doc s /\ page_ e = page s.
Proof.
  unfold section_of, get_score. destruct (score s); simpl; [|discriminate].
  intros H. injection H as <-. auto.
Qed.

Lemma Forall2_nth_error_r {X Y : Type} (R : X -> Y -> Prop) l l' i y :
  Forall2 R l l' -> nth_error l' i = Some y ->
  exists x, nth_error l i = Some x /\ R x y.
Proof.
  intros H Hy. apply Forall2_flip in H.
  exact (Forall2_nth_error_l _ H Hy).
Qed.

(** A successful run of the scorer on unscored candidates, position by
    position: the candidate at [j] got the similarity of the vector at
    [j]. *)
Lemma score_relevance_positions (B : backend) (texts out : list (candidate B))
      query log log' :
  (forall t, In t texts -> score t = None) ->
  score_relevance texts query log = (Ok out, log') ->
  exists embs qe,
    encode_batch B (map text texts) = Some embs
    /\ encode_query B query = Some qe
    /\ forall s, In s out ->
         exists j t emb,
           nth_error texts j = Some t /\ nth_error embs j = Some emb
           /\ same_source t s /\ score s = Some (cos_sim B qe emb).
Proof.
  intros Hnone Hrun. apply score_relevance_ok in Hrun
    as (embs & qe & scored & Hembs & Hq & Hassign & Hsorted & _).
  exists embs, qe. split; [exact Hembs|]. split; [exact Hq|].
  intros s Hs.
  assert (Hsc : Forall2 (fun (c : candidate B) k => score c = Some k) scored
                  (map (cos_sim B qe) embs)).
  { eapply assign_scores_unscored; [exact Hassign | exact Hnone |].
    intros c Hc. eapply sorted_keys_present; [exact Hsorted | exact Hc]. }
  apply sorted_perm in Hsorted. apply (Permutation_in _ Hsorted) in Hs.
  apply In_nth_error in Hs as [j Hj].
  apply assign_scores_same_source in Hassign.
  destruct (Forall2_nth_error_r _ Hassign Hj) as (t & Ht & Hsrc).
  destruct (Forall2_nth_error_l _ Hsc Hj) as (k & Hk & Hsk).
  rewrite nth_error_map in Hk.
  destruct (nth_error embs j) as [emb|] eqn:Hemb; [|discriminate].
  injection Hk as <-. exists j, t, emb. auto.
Qed.

(** X5: the score of a report entry is [round(_, 4)] of the similarity
    between the query vector and the vector the model returned at the pool
    position of the entry's own candidate: the block the entry's document,
    page and title come from. *)
Theorem report_scores_belong_to_their_candidates (B : backend) paths persona
        job timestamp log log' (r : report B) :
  process_documents B paths persona job timestamp log = (Ok r, log') ->
  exists ds embs qe,
    opens B paths ds
    /\ encode_batch B (map text (pool_of B paths ds)) = Some embs
    /\ encode_query B (full_query persona job) = Some qe
    /\ forall i e,
         nth_error (extracted_sections r) i = Some e ->
         exists j t emb,
           nth_error (pool_of B paths ds) j = Some t
           /\ nth_error embs j = Some emb
           /\ document e = doc t
           /\ page_ e = page t
           /\ section_title e = slice_to 50 (hd [] (split newline (text t)))
           /\ score_ e = round4 B (cos_sim B qe emb).
Proof.
  intros H. apply process_documents_entries in H
    as (ds & ranked & Hds & Hrun & _ & _ & Hent).
  assert (Hnone : forall t, In t (pool_of B paths ds) -> score t = None)
    by (intros t Ht; eapply pool_of_unscored, Ht).
  destruct (score_relevance_positions _ _ _ Hnone Hrun)
    as (embs & qe & Hembs & Hq & Hpos).
  exists ds, embs, qe. split; [exact Hds|]. split; [exact Hembs|].
  split; [exact Hq|]. intros i e He.
  destruct (Hent i e He) as (s & Hs & Hok & _).
  apply nth_error_In in Hs.
  destruct (Hpos s Hs) as (j & t & emb & Ht & Hemb & Hsrc & Hscore).
  destruct (section_of_fields _ _ Hok) as [Hdoc Hpage].
  apply section_of_ok in Hok as (sc & Hsc & Htitle & _ & Hround).
  destruct Hsrc as (Hd & Hp & Htext).
  exists j, t, emb. repeat split; auto; try congruence.
Qed.

Lemma report_scores_belong_to_their_candidates_witness :
  exists ds embs qe,
    opens Fake.deployment Fake.paths ds
    /\ encode_batch Fake.deployment
         (map text (pool_of Fake.deployment Fake.paths ds)) = Some embs
    /\ encode_query Fake.deployment (full_query Fake.persona Fake.job)
       = Some qe
    /\ forall i e,
         nth_error (extracted_sections Fake.outcome) i = Some e ->
         exists j t emb,
           nth_error (pool_of Fake.deployment Fake.paths ds) j = Some t
           /\ nth_error embs j = Some emb
           /\ document e = doc t
           /\ page_ e = page t
           /\ section_title e = slice_to 50 (hd [] (split newline (text t)))
           /\ score_ e
              = round4 Fake.deployment (cos_sim Fake.deployment qe emb).
Proof.
  exact (@report_scores_belong_to_their_candidates Fake.deployment Fake.paths
           Fake.persona Fake.job Fake.timestamp [] _ _ fake_run).
Defined.

(** X6: no candidate ranked at or after the position of a report entry
    has a rounded score above that entry's score.  So the first entry has
    the highest rounded score of the whole pool, and no candidate left out
    of the report beats a reported one. *)
Theorem reported_scores_dominate (B : backend) paths persona job timestamp
        log log' (r : report B) :
  float_order B ->
  round4_monotone B ->
  process_documents B paths persona job timestamp log = (Ok r, log') ->
  exists ds ranked,
    opens B paths ds
    /\ score_relevance (pool_of B paths ds) (full_query persona job)
         (log ++ map CallOpen paths) = (Ok ranked, log')
    /\ length ranked = length (pool_of B paths ds)
    /\ forall i e j s sc,
         nth_error (extracted_sections r) i = Some e ->
         nth_error ranked j = Some s ->
         score s = Some sc ->
         i <= j ->
         flt B (score_ e) (round4 B sc) = false.
Proof.
  intros Hord Hround H. apply process_documents_entries in H
    as (ds & ranked & Hds & Hrun & _ & _ & Hent).
  exists ds, ranked. split; [exact Hds|]. split; [exact Hrun|].
  split; [exact (score_relevance_length _ _ _ Hrun)|].
  intros i e j s sc He Hs Hsc Hij.
  destruct (Hent i e He) as (si & Hsi & Hok & _).
  apply section_of_ok in Hok as (ci & Hci & _ & _ & ->).
  apply Hround.
  destruct (Nat.eq_dec i j) as [<-|Hne].
  - assert (si = s) by congruence. subst si.
    assert (ci = sc) by congruence. subst ci.
    apply (flt_irrefl Hord).
  - apply score_relevance_ok in Hrun
      as (_ & _ & scored & _ & _ & _ & Hsorted & _).
    pose proof (sorted_descending Hord _ Hsorted) as Hdesc.
    assert (Hlt : i < j) by lia.
    pose proof (StronglySorted_nth Hdesc Hlt Hsi Hs) as Hnot.
    unfold score_ltb in Hnot. now rewrite Hci, Hsc in Hnot.
Qed.

Lemma reported_scores_dominate_witness :
  exists ds ranked,
    opens Fake.deployment Fake.paths ds
    /\ score_relevance (pool_of Fake.deployment Fake.paths ds)
         (full_query Fake.persona Fake.job)
         ([] ++ map CallOpen Fake.paths) = (Ok ranked, Fake.calls)
    /\ length ranked = length (pool_of Fake.deployment Fake.paths ds)
    /\ forall i e j s sc,
         nth_error (extracted_sections Fake.outcome) i = Some e ->
         nth_error ranked j = Some s ->
         score s = Some sc ->
         i <= j ->
         flt Fake.deployment (score_ e) (round4 Fake.deployment sc) = false.
Proof.
  exact (@reported_scores_dominate Fake.deployment Fake.paths Fake.persona
           Fake.job Fake.timestamp [] _ _ fake_float_order
           fake_round4_monotone fake_run).
Defined.

(** ** Provenance and shape of the entries *)

Lemma In_firstn {X : Type} (n : nat) (l : list X) (x : X) :
  In x (firstn n l) -> In x l.
Proof.
  intros H. rewrite <- (firstn_skipn n l). apply in_or_app. now left.
Qed.

Lemma pool_candidate_origin (B : backend) paths ds (t : candidate B) :
  opens B paths ds ->
  In t (pool_of B paths ds) ->
  exists path d n pg b,
    In path paths /\ fitz_open B path = Some d
    /\ nth_error d n = Some pg /\ In b pg
    /\ 30 <= length (strip (b4 b))
    /\ t = Candidate (basename path) (n + 1) (strip (b4 b)) None.
Proof.
  intros Hds Ht.
  destruct (In_pool_of _ Hds Ht) as (path & d & Hpath & Hopen & Hin).
  apply In_doc_sections in Hin as (n & pg & b & Hpg & Hb & Hle & ->).
  exists path, d, n, pg, b. repeat split; auto.
Qed.

(** X7: every entry of [extracted_sections] names a document listed in
    [metadata.documents], the basename of an input path, and a page
    between 1 and the number of pages of the document opened from that
    path; the entry of [subsection_analysis] at the same position names the
    same document and page. *)
Theorem report_entries_have_provenance (B : backend) paths persona job
        timestamp log log' (r : report B) :
  process_documents B paths persona job timestamp log = (Ok r, log') ->
  forall i e,
    nth_error (extracted_sections r) i = Some e ->
    In (document e) (documents (metadata r))
    /\ (exists path d,
          In path paths /\ fitz_open B path = Some d
          /\ document e = basename path
          /\ 1 <= page_ e <= length d)
    /\ exists sub,
        nth_error (subsection_analysis r) i = Some sub
        /\ sub_document sub = document e
        /\ sub_page sub = page_ e.
Proof.
  intros H i e He.
  assert (Hmeta : documents (metadata r) = map basename paths).
  { apply process_documents_ok in H as (_ & _ & _ & _ & _ & _ & ->).
    reflexivity. }
  apply process_documents_entries in H
    as (ds & ranked & Hds & Hrun & _ & _ & Hent).
  destruct (Hent i e He) as (s & Hs & Hok & Hsub).
  destruct (section_of_fields _ _ Hok) as [Hdoc Hpage].
  apply nth_error_In in Hs.
  destruct (score_relevance_source _ _ _ _ Hrun Hs) as (t & Ht & Hd & Hp & _).
  destruct (pool_candidate_origin _ Hds Ht)
    as (path & d & n & pg & b & Hpath & Hopen & Hpg & _ & _ & ->).
  simpl in Hd, Hp.
  assert (Hn : n < length d) by (apply nth_error_Some; congruence).
  split; [|split].
  - rewrite Hmeta, Hdoc, Hd. now apply in_map.
  - exists path, d. repeat split; auto; try congruence; lia.
  - exists (subsection_of s). simpl. auto.
Qed.

Lemma report_entries_have_provenance_witness :
  map (fun e => (document e, page_ e)) (extracted_sections Fake.outcome)
  = [ (of_string "c.pdf", 1); (of_string "a.pdf", 1);
      (of_string "c.pdf", 1); (of_string "a.pdf", 2) ]
  /\ forall i e,
      nth_error (extracted_sections Fake.outcome) i = Some e ->
      In (document e) (documents (metadata Fake.outcome))
      /\ (exists path d,
            In path Fake.paths /\ fitz_open Fake.deployment path = Some d
            /\ document e = basename path
            /\ 1 <= page_ e <= length d)
      /\ exists sub,
          nth_error (subsection_analysis Fake.outcome) i = Some sub
          /\ sub_document sub = document e
          /\ sub_page sub = page_ e.
Proof.
  split; [reflexivity|].
  exact (@report_entries_have_provenance Fake.deployment Fake.paths
           Fake.persona Fake.job Fake.timestamp [] _ _ fake_run).
Defined.

Lemma lstrip_fixed_head (c : char) (t : str) :
  lstrip (c :: t) = c :: t -> isspace c = false.
Proof.
  intros H. destruct (isspace c) eqn:E; [|reflexivity].
  simpl in H. rewrite E in H.
  pose proof (lstrip_length t) as Hl. rewrite H in Hl. simpl in Hl. lia.
Qed.

Lemma split_hd_cons (sep c : char) (t : str) :
  c <> sep ->
  exists w, hd [] (split sep (c :: t)) = c :: w.
Proof.
  intros Hne. simpl. destruct (N.eqb_spec c sep) as [->|_]; [congruence|].
  destruct (split sep t) as [|w ws]; simpl; eauto.
Qed.

(** The text of a pooled candidate starts with a character that is not
    whitespace and has 30 characters or more. *)
Lemma pool_text_shape (B : backend) paths ds (t : candidate B) :
  opens B paths ds ->
  In t (pool_of B paths ds) ->
  30 <= length (text t)
  /\ exists c rest, text t = c :: rest /\ isspace c = false.
Proof.
  intros Hds Ht.
  destruct (pool_candidate_origin _ Hds Ht)
    as (path & d & n & pg & b & _ & _ & _ & _ & Hle & ->).
  simpl. split; [exact Hle|].
  destruct (strip_spec (b4 b)) as (_ & _ & _ & _ & _ & Hfix & _).
  destruct (strip (b4 b)) as [|c rest]; [simpl in Hle; lia|].
  exists c, rest. split; [reflexivity|]. exact (lstrip_fixed_head Hfix).
Qed.

(** X8: in every report, a [section_title] is not empty, starts with a
    character that is not whitespace and holds no newline; a
    [refined_text] starts with a character that is not whitespace and has
    between 30 and 300 characters. *)
Theorem report_texts_are_trimmed (B : backend) paths persona job timestamp
        log log' (r : report B) :
  process_documents B paths persona job timestamp log = (Ok r, log') ->
  forall i e sub,
    nth_error (extracted_sections r) i = Some e ->
    nth_error (subsection_analysis r) i = Some sub ->
    (exists c rest, section_title e = c :: rest /\ isspace c = false)
    /\ ~ In newline (section_title e)
    /\ (exists c rest, refined_text sub = c :: rest /\ isspace c = false)
    /\ 30 <= length (refined_text sub) <= 300.
Proof.
  intros H i e sub He Hsub.
  apply process_documents_entries in H
    as (ds & ranked & Hds & Hrun & _ & _ & Hent).
  destruct (Hent i e He) as (s & Hs & Hok & Hsub').
  assert (sub = subsection_of s) by congruence. subst sub.
  apply section_of_ok in Hok as (sc & _ & Htitle & _).
  apply nth_error_In in Hs.
  destruct (score_relevance_source _ _ _ _ Hrun Hs) as (t & Ht & _ & _ & Htext).
  destruct (pool_text_shape _ Hds Ht) as (Hlen & c & rest & Hc & Hsp).
  rewrite <- Htext in Hlen, Hc. clear Htext Ht t.
  assert (Hnl : c <> newline) by (intros ->; discriminate Hsp).
  rewrite Htitle. cbn [refined_text subsection_of]. unfold slice_to.
  split; [|split; [|split]].
  - rewrite Hc. destruct (split_hd_cons rest Hnl) as [w ->].
    exists c, (firstn 49 w). auto.
  - intros Hin. apply In_firstn in Hin.
    destruct (split_hd_spec newline (text s)) as (_ & _ & Hno & _). auto.
  - rewrite Hc. exists c, (firstn 299 rest). auto.
  - rewrite length_firstn. lia.
Qed.

Lemma report_texts_are_trimmed_witness :
  map (fun sub => length (refined_text sub))
      (subsection_analysis Fake.outcome) = [53; 56; 56; 68]
  /\ forall i e sub,
      nth_error (extracted_sections Fake.outcome) i = Some e ->
      nth_error (subsection_analysis Fake.outcome) i = Some sub ->
      (exists c rest, section_title e = c :: rest /\ isspace c = false)
      /\ ~ In newline (section_title e)
      /\ (exists c rest, refined_text sub = c :: rest /\ isspace c = false)
      /\ 30 <= length (refined_text sub) <= 300.
Proof.
  split; [reflexivity|].
  exact (@report_texts_are_trimmed Fake.deployment Fake.paths Fake.persona
           Fake.job Fake.timestamp [] _ _ fake_run).
Defined.

(** ** The scorer keeps its input *)

Lemma same_source_map (B : backend) (l l' : list (candidate B)) :
  Forall2 same_source l l' ->
  map (fun c => (doc c, page c, text c)) l'
  = map (fun c => (doc c, page c, text c)) l.
Proof.
  induction 1 as [|t t' l l' (Hd & Hp & Ht) _ IH]; simpl; [reflexivity|].
  now rewrite Hd, Hp, Ht, IH.
Qed.

(** X9: a successful [score_relevance] neither drops nor duplicates nor
    alters a candidate: up to order, the documents, pages and texts of its
    output are those of its input, and every output candidate has a
    score. *)
Theorem score_relevance_keeps_every_candidate (B : backend)
        (texts out : list (candidate B)) query log log' :
  score_relevance texts query log = (Ok out, log') ->
  Permutation (map (fun c => (doc c, page c, text c)) out)
              (map (fun c => (doc c, page c, text c)) texts)
  /\ length out = length texts
  /\ forall c, In c out -> score c <> None.
Proof.
  intros H. pose proof (score_relevance_length _ _ _ H) as Hlen.
  apply score_relevance_ok in H
    as (embs & qe & scored & _ & _ & Hassign & Hsorted & _).
  pose proof (sorted_perm _ Hsorted) as Hperm.
  split; [|split; [exact Hlen|]].
  - rewrite <- (same_source_map (assign_scores_same_source _ _ Hassign)).
    now apply Permutation_map.
  - intros c Hc. apply (Permutation_in _ Hperm) in Hc.
    eapply sorted_keys_present; [exact Hsorted | exact Hc].
Qed.

Lemma score_relevance_keeps_every_candidate_witness :
  Permutation
    (map (fun c : candidate Fake.deployment => (doc c, page c, text c))
         (fst Fake.ranking))
    (map (fun c => (doc c, page c, text c)) Fake.pool)
  /\ length (fst Fake.ranking) = length Fake.pool
  /\ forall c, In c (fst Fake.ranking) -> score c <> None.
Proof.
  apply (@score_relevance_keeps_every_candidate Fake.deployment Fake.pool
           (fst Fake.ranking) Fake.query [] (snd Fake.ranking)).
  reflexivity.
Defined.

(** ** The segmenter keeps the reading order *)

Lemma StronglySorted_all {X : Type} (R : X -> X -> Prop) (l : list X) :
  (forall a b, In a l -> In b l -> R a b) -> StronglySorted R l.
Proof.
  induction l as [|x l IH]; intros H; constructor.
  - apply IH. intros a b Ha Hb. apply H; now right.
  - apply Forall_forall. intros b Hb. apply H; [now left | now right].
Qed.

Lemma StronglySorted_app {X : Type} (R : X -> X -> Prop) (l1 l2 : list X) :
  StronglySorted R l1 -> StronglySorted R l2 ->
  (forall a b, In a l1 -> In b l2 -> R a b) ->
  StronglySorted R (l1 ++ l2).
Proof.
  induction 1 as [|x l1 _ IH Hx]; intros H2 Hcross; simpl; [exact H2|].
  constructor.
  - apply IH; [exact H2|]. intros a b Ha Hb. apply Hcross; [now right|auto].
  - apply Forall_app. split; [exact Hx|].
    apply Forall_forall. intros b Hb. apply Hcross; [now left | exact Hb].
Qed.

Lemma page_sections_texts (B : backend) path i (blocks : fitz_page) :
  map text (page_sections B path i blocks)
  = filter (fun t => 30 <=? length t) (map (fun b => strip (b4 b)) blocks).
Proof.
  unfold page_sections. cbv zeta.
  induction blocks as [|b bs IH]; [reflexivity|].
  cbn [flat_map map filter].
  destruct (30 <=? length (strip (b4 b))); cbn [app map]; now rewrite IH.
Qed.

Lemma doc_sections_from (B : backend) path (d : fitz_document) (n : nat) :
  let cs := flat_map (fun ip => page_sections B path (fst ip) (snd ip))
              (combine (seq n (length d)) d) in
  map text cs
  = filter (fun t => 30 <=? length t)
      (map (fun b => strip (b4 b)) (concat d))
  /\ StronglySorted (fun a b : candidate B => page a <= page b) cs
  /\ forall c, In c cs -> n < page c.
Proof.
  revert n. induction d as [|pg d IH]; intros n; cbv zeta.
  - simpl. repeat split; [constructor | tauto].
  - destruct (IH (S n)) as (Htext & Hsorted & Hlow). cbv zeta in *.
    cbn [length seq combine flat_map fst snd concat].
    assert (Hpage : forall c, In c (page_sections B path n pg) ->
                              page c = n + 1).
    { intros c Hc. apply In_page_sections in Hc as (b & _ & _ & ->).
      reflexivity. }
    split; [|split].
    + now rewrite map_app, map_app, filter_app, page_sections_texts, Htext.
    + apply StronglySorted_app; [|exact Hsorted|].
      * apply StronglySorted_all. intros a b Ha Hb.
        rewrite (Hpage a Ha), (Hpage b Hb). lia.
      * intros a b Ha Hb. rewrite (Hpage a Ha).
        specialize (Hlow b Hb). lia.
    + intros c Hc. apply in_app_or in Hc as [Hc|Hc].
      * rewrite (Hpage c Hc). lia.
      * specialize (Hlow c Hc). lia.
Qed.

(** X10: [get_sections_from_pdf] opens its document once and returns the
    stripped texts of the blocks of 30 characters or more exactly in the
    backend's order (pages in order, blocks in order within a page); the
    page numbers never decrease along the result and lie between 1 and the
    number of pages; every candidate carries the basename of the path and
    no score. *)
Theorem get_sections_from_pdf_keeps_reading_order (B : backend) path log
        (cs : list (candidate B)) log' :
  get_sections_from_pdf B path log = (Ok cs, log') ->
  exists d,
    fitz_open B path = Some d
    /\ log' = log ++ [CallOpen path]
    /\ map text cs
       = filter (fun t => 30 <=? length t)
           (map (fun b => strip (b4 b)) (concat d))
    /\ StronglySorted (fun a b : candidate B => page a <= page b) cs
    /\ forall c,
         In c cs ->
         doc c = basename path /\ score c = None /\ 1 <= page c <= length d.
Proof.
  unfold get_sections_from_pdf. intros H. invert_run.
  exists a. split; [exact Hcall|]. split; [reflexivity|].
  destruct (doc_sections_from B path a 0) as (Htext & Hsorted & _).
  cbv zeta in *. split; [exact Htext|]. split; [exact Hsorted|].
  intros c Hc. apply In_doc_sections in Hc as (n & pg & b & Hpg & _ & _ & ->).
  assert (n < length a) by (apply nth_error_Some; congruence).
  simpl. repeat split; lia.
Qed.

Lemma get_sections_from_pdf_keeps_reading_order_witness :
  exists d,
    fitz_open Fake.deployment Fake.path_a = Some d
    /\ [CallOpen Fake.path_a] = [] ++ [CallOpen Fake.path_a]
    /\ map text (doc_sections Fake.deployment Fake.path_a Fake.doc_a)
       = filter (fun t => 30 <=? length t)
           (map (fun b => strip (b4 b)) (concat d))
    /\ StronglySorted
         (fun a b : candidate Fake.deployment => page a <= page b)
         (doc_sections Fake.deployment Fake.path_a Fake.doc_a)
    /\ forall c,
         In c (doc_sections Fake.deployment Fake.path_a Fake.doc_a) ->
         doc c = basename Fake.path_a /\ score c = None
         /\ 1 <= page c <= length d.
Proof.
  apply (@get_sections_from_pdf_keeps_reading_order Fake.deployment
           Fake.path_a []).
  reflexivity.
Defined.

(** ** Ranking twice *)

Section SortFixedPoint.

Variables A K : Type.
Variable ltb : K -> K -> bool.

Lemma insort_at_end (x : K * A) (acc : list (K * A)) :
  Forall (fun y => ltb (fst x) (fst y) = false) acc ->
  insort ltb x acc = acc ++ [x].
Proof.
  induction 1 as [|y acc Hy _ IH]; simpl; [reflexivity|].
  now rewrite Hy, IH.
Qed.

Lemma StronglySorted_before {X : Type} (R : X -> X -> Prop) l1 x l2 :
  StronglySorted R (l1 ++ x :: l2) -> Forall (fun y => R y x) l1.
Proof.
  induction l1 as [|y l1 IH]; simpl; intros H; [constructor|].
  apply StronglySorted_inv in H as [H Hy]. constructor.
  - rewrite Forall_forall in Hy. apply Hy, in_elt.
  - apply IH, H.
Qed.

Lemma fold_insort_sorted_id (l acc : list (K * A)) :
  StronglySorted (fun a b => ltb (fst b) (fst a) = false) (acc ++ l) ->
  fold_left (fun acc x => insort ltb x acc) l acc = acc ++ l.
Proof.
  revert acc. induction l as [|x l IH]; intros acc H; simpl.
  - now rewrite app_nil_r.
  - rewrite insort_at_end by exact (StronglySorted_before _ _ _ H).
    rewrite IH; rewrite <- app_assoc; [reflexivity | exact H].
Qed.

Lemma StronglySorted_rev_flip {X : Type} (R : X -> X -> Prop) (l : list X) :
  StronglySorted R l -> StronglySorted (fun a b => R b a) (rev l).
Proof.
  induction 1 as [|x l _ IH Hx]; simpl; [constructor|].
  apply StronglySorted_app; [exact IH | repeat constructor |].
  intros a b Ha [<-|[]]. apply in_rev in Ha.
  rewrite Forall_forall in Hx. auto.
Qed.

(** Sorting a list that is already in descending order returns it. *)
Lemma list_sort_descending_id (l : list (K * A)) :
  StronglySorted (fun a b => ltb (fst a) (fst b) = false) l ->
  list_sort ltb true l = l.
Proof.
  intros H. unfold list_sort, sort_asc.
  rewrite fold_insort_sorted_id.
  - simpl. apply rev_involutive.
  - simpl. exact (StronglySorted_rev_flip H).
Qed.

End SortFixedPoint.

Lemma descending_decorated (B : backend) (items : list (candidate B))
      (keys : list (float B)) :
  Forall2 (fun c k => get_score c = Ok k) items keys ->
  descending items ->
  StronglySorted (fun a b => flt B (fst a) (fst b) = false)
    (combine keys items).
Proof.
  intros H. induction H as [|c k items keys Hck Hrest IH]; intros Hd; simpl;
    [constructor|].
  apply StronglySorted_inv in Hd as [Hd Hc]. constructor; [auto|].
  apply Forall_forall. intros [k' c'] Hin.
  assert (Hc' : In c' items) by (eapply in_combine_r, Hin).
  assert (Hk' : score c' = Some k').
  { clear -Hrest Hin. induction Hrest as [|x y l l' Hxy _ IH];
      [destruct Hin|].
    destruct Hin as [Heq|Hin]; [|auto]. injection Heq as <- <-.
    unfold get_score in Hxy. destruct (score x); congruence. }
  rewrite Forall_forall in Hc. specialize (Hc c' Hc').
  unfold score_ltb in Hc. unfold get_score in Hck.
  destruct (score c) as [kc|]; [|discriminate]. injection Hck as <-.
  rewrite Hk' in Hc. exact Hc.
Qed.

(** X11: the ranking returned by [score_relevance] is a fixed point of
    the sort: sorting it again by score, descending, returns it
    unchanged. *)
Theorem ranking_is_a_fixed_point_of_the_sort (B : backend)
        (texts out : list (candidate B)) query log log' :
  float_order B ->
  score_relevance texts query log = (Ok out, log') ->
  sorted (@flt B) out get_score true = Ok out.
Proof.
  intros Hord H. apply score_relevance_ok in H
    as (_ & _ & scored & _ & _ & _ & Hsorted & _).
  pose proof (sorted_descending Hord _ Hsorted) as Hdesc.
  pose proof (sorted_perm _ Hsorted) as Hperm.
  destruct (@sorted_total B out) as [out' Hout'].
  { intros c Hc. apply (Permutation_in _ Hperm) in Hc.
    eapply sorted_keys_present; [exact Hsorted | exact Hc]. }
  rewrite Hout'. f_equal.
  apply sorted_ok in Hout' as (keys & Hkeys & ->).
  destruct (get_score_keys _ Hkeys) as [Hsnd _].
  rewrite list_sort_descending_id; [exact Hsnd|].
  apply descending_decorated; [apply mapR_ok, Hkeys | exact Hdesc].
Qed.

Lemma ranking_is_a_fixed_point_of_the_sort_witness :
  sorted (@flt Fake.deployment) (fst Fake.ranking) get_score true
  = Ok (fst Fake.ranking).
Proof.
  apply (@ranking_is_a_fixed_point_of_the_sort Fake.deployment Fake.pool
           (fst Fake.ranking) Fake.query [] (snd Fake.ranking)
           fake_float_order).
  reflexivity.
Defined.

(** * The upload handler *)

(** ** Upload paths *)

Lemma rfind_from_lower (c : char) (s : str) (i last : Z) :
  (0 <= i)%Z -> (-1 <= last)%Z -> (-1 <= rfind_from c s i last)%Z.
Proof.
  revert i last. induction s as [|x s IH]; intros i last Hi Hl; simpl;
    [exact Hl|].
  apply IH; [lia|]. destruct (x =? c)%N; lia.
Qed.

Lemma rfind_from_spec (c : char) (s : str) (i last : Z) :
  rfind_from c s i last
  = if (rfind c s <? 0)%Z then last else (i + rfind c s)%Z.
Proof.
  revert i last. induction s as [|x s IH]; intros i last.
  - reflexivity.
  - unfold rfind. simpl rfind_from. rewrite (IH (i + 1)%Z), (IH (0 + 1)%Z).
    pose proof (@rfind_from_lower c s 0 (-1)) as Hlow. fold (rfind c s) in Hlow.
    destruct (Z.ltb_spec (rfind c s) 0) as [Hneg|Hpos].
    + destruct (x =? c)%N; simpl; [f_equal; lia | reflexivity].
    + destruct (Z.ltb_spec (0 + 1 + rfind c s) 0); lia.
Qed.

(** Putting a directory in front of a path does not change its basename. *)
Lemma basename_after_slash (dir p : str) :
  basename (dir ++ slash :: p) = basename p.
Proof.
  unfold basename, slice_from.
  assert (Hr : rfind slash (dir ++ slash :: p)
               = if (rfind slash p <? 0)%Z then Z.of_nat (length dir)
                 else (Z.of_nat (length dir) + 1 + rfind slash p)%Z).
  { unfold rfind at 1. rewrite rfind_from_app. simpl rfind_from.
    now rewrite rfind_from_spec. }
  rewrite Hr.
  pose proof (@rfind_from_lower slash p 0 (-1)) as Hlow.
  fold (rfind slash p) in Hlow.
  destruct (Z.ltb_spec (rfind slash p) 0) as [Hneg|Hpos].
  - replace (rfind slash p) with (-1)%Z by lia. simpl (Z.to_nat (-1 + 1)).
    replace (Z.to_nat (Z.of_nat (length dir) + 1)) with (length dir + 1)
      by lia.
    rewrite skipn_app, skipn_all2 by lia.
    replace (length dir + 1 - length dir) with 1 by lia. reflexivity.
  - replace (Z.to_nat (Z.of_nat (length dir) + 1 + rfind slash p + 1))
      with (length dir + (1 + Z.to_nat (rfind slash p + 1))) by lia.
    rewrite skipn_app, skipn_all2 by lia.
    replace (length dir + (1 + Z.to_nat (rfind slash p + 1)) - length dir)
      with (S (Z.to_nat (rfind slash p + 1))) by lia.
    reflexivity.
Qed.

Lemma upload_path_cases (name : str) :
  path_join UPLOAD_FOLDER name
  = if startswith slash name then name else UPLOAD_FOLDER ++ slash :: name.
Proof. unfold path_join. destruct (startswith slash name); reflexivity. Qed.

(** X12: the path an upload is saved under has the basename of the
    client's file name, so [metadata.documents] shows the uploaded names
    (the name itself when it holds no ['/']).  The file name is not
    confined to the upload folder: a name that starts with ['/'] is used
    as the path itself; any other name is appended to ["uploads/"]. *)
Theorem upload_path_keeps_the_file_name (f : file_storage) :
  basename (upload_path f) = basename (filename f)
  /\ (~ In slash (filename f) -> basename (upload_path f) = filename f)
  /\ (startswith slash (filename f) = true -> upload_path f = filename f)
  /\ (startswith slash (filename f) = false ->
      upload_path f = of_string "uploads/" ++ filename f).
Proof.
  unfold upload_path. rewrite upload_path_cases.
  assert (Hbase : basename (if startswith slash (filename f)
                            then filename f
                            else UPLOAD_FOLDER ++ slash :: filename f)
                  = basename (filename f)).
  { destruct (startswith slash (filename f)); [reflexivity|].
    apply basename_after_slash. }
  split; [exact Hbase|]. split; [|split].
  - intros Hno. rewrite Hbase. now apply basename_plain.
  - intros ->. reflexivity.
  - intros ->. reflexivity.
Qed.

Lemma upload_path_keeps_the_file_name_witness :
  upload_path {| filename := of_string "/srv/app/app.py"; stream := [] |}
  = of_string "/srv/app/app.py"
  /\ basename
       (upload_path {| filename := of_string "/srv/app/app.py";
                       stream := [] |})
     = of_string "app.py"
  /\ upload_path {| filename := of_string "a.pdf"; stream := [] |}
     = of_string "uploads/a.pdf".
Proof.
  destruct (upload_path_keeps_the_file_name
              {| filename := of_string "/srv/app/app.py"; stream := [] |})
    as (Hbase & _ & Habs & _).
  destruct (upload_path_keeps_the_file_name
              {| filename := of_string "a.pdf"; stream := [] |})
    as (_ & _ & _ & Hrel).
  split; [apply Habs; reflexivity|].
  split; [rewrite Hbase; reflexivity | apply Hrel; reflexivity].
Defined.

(** ** The handler *)

Section HandlerFacts.

Variable B : backend.
Variable Hst : host.

Lemma abind_done {A C : Type} (m : App B A) (k : A -> App B C) evs c evs' :
  abind m k evs = (Done c, evs') ->
  exists a e1, m evs = (Done a, e1) /\ k a e1 = (Done c, evs').
Proof.
  unfold abind. destruct (m evs) as [[a|e] e1]; [eauto | discriminate].
Qed.

Lemma save_uploads_all (fs : list file_storage) (acc : list str) evs :
  (forall f, In f fs -> save_ok Hst (upload_path f) = true) ->
  save_uploads Hst fs acc evs
  = (Done (acc ++ map upload_path fs), evs ++ saves_of B fs).
Proof.
  revert acc evs. induction fs as [|f fs IH]; intros acc evs Hall; simpl.
  - unfold aret, saves_of. simpl. now rewrite !app_nil_r.
  - unfold abind, save. fold (upload_path f).
    rewrite (Hall f) by now left.
    rewrite IH by (intros; apply Hall; now right).
    unfold saves_of. simpl. now rewrite <- !app_assoc.
Qed.

Lemma save_uploads_stops (pre post : list file_storage) (f : file_storage)
      (acc : list str) evs :
  (forall g, In g pre -> save_ok Hst (upload_path g) = true) ->
  save_ok Hst (upload_path f) = false ->
  save_uploads Hst (pre ++ f :: post) acc evs
  = (Raised (SaveError (upload_path f)),
     evs ++ saves_of B pre ++ [Save f (upload_path f)]).
Proof.
  revert acc evs. induction pre as [|g pre IH]; intros acc evs Hall Hf; simpl.
  - unfold abind, save. fold (upload_path f). now rewrite Hf.
  - unfold abind at 1, save at 1. fold (upload_path g).
    rewrite (Hall g) by now left.
    rewrite IH by (auto; intros; apply Hall; now right).
    unfold saves_of. simpl. now rewrite <- !app_assoc.
Qed.

Lemma save_uploads_done (fs : list file_storage) (acc paths : list str)
      evs evs' :
  save_uploads Hst fs acc evs = (Done paths, evs') ->
  (forall f, In f fs -> save_ok Hst (upload_path f) = true)
  /\ paths = acc ++ map upload_path fs
  /\ evs' = evs ++ saves_of B fs.
Proof.
  revert acc evs. induction fs as [|f fs IH]; intros acc evs H; simpl in H.
  - unfold aret in H. injection H as <- <-. unfold saves_of. simpl.
    rewrite !app_nil_r. repeat split. intros f [].
  - apply abind_done in H as ([] & e1 & Hsave & H).
    unfold save in Hsave. fold (upload_path f) in Hsave.
    destruct (save_ok Hst (upload_path f)) eqn:Hf; [|discriminate].
    injection Hsave as <-. apply IH in H as (Hall & -> & ->).
    split; [|split].
    + intros g [<-|Hg]; auto.
    + simpl. now rewrite <- app_assoc.
    + unfold saves_of. simpl. now rewrite <- app_assoc.
Qed.

Lemma complete_post_true (req : request) :
  complete_post req = true <->
  eqb_str (method req) (of_string "POST") = true
  /\ py_not (persona_of req) = false
  /\ py_not (job_of req) = false
  /\ 3 <= length (uploads_of req).
Proof.
  unfold complete_post.
  rewrite !andb_true_iff, !negb_true_iff, Nat.leb_le. tauto.
Qed.

(** The handler on a complete POST, step by step. *)
Lemma index_complete (req : request) evs :
  complete_post req = true ->
  @index B Hst req evs
  = abind (save_uploads Hst (uploads_of req) [])
      (fun pdf_paths =>
         abind (now Hst)
           (fun timestamp =>
              abind (core (process_documents B pdf_paths
                             (as_str (persona_of req))
                             (as_str (job_of req)) timestamp))
                (fun result =>
                   abind (dump Hst OUTPUT_FILE result)
                     (fun _ =>
                        aret (RenderTemplate (of_string "index.html")
                                (Some result) (persona_of req)
                                (job_of req))))))
      evs.
Proof.
  intros H. apply complete_post_true in H as (Hm & Hp & Hj & Hn).
  unfold index. rewrite Hm.
  fold (persona_of req) (job_of req) (uploads_of req).
  rewrite Hp, Hj. apply Nat.ltb_ge in Hn. rewrite Hn. reflexivity.
Qed.

Lemma report_metadata (paths : list str) persona job timestamp log log'
      (r : report B) :
  process_documents B paths persona job timestamp log = (Ok r, log') ->
  metadata r = Metadata (map basename paths) persona job timestamp.
Proof.
  intros H.
  apply process_documents_ok in H as (_ & _ & _ & _ & _ & _ & ->).
  reflexivity.
Qed.

Lemma upload_basenames (fs : list file_storage) :
  map basename (map upload_path fs)
  = map (fun f => basename (filename f)) fs.
Proof.
  rewrite map_map. apply map_ext. intros f. unfold upload_path.
  rewrite upload_path_cases.
  destruct (startswith slash (filename f)); [reflexivity|].
  apply basename_after_slash.
Qed.

End HandlerFacts.

(** X13: a request that is not a complete POST touches nothing: no file is
    saved, no document opened, the model is not called and no output is
    written.  A POST with a missing or empty persona or job, or with fewer
    than three files, is answered by the flash message and a redirect; a
    request with another method by the empty form. *)
Theorem index_refuses_incomplete_request (B : backend) (Hst : host)
        (req : request) (evs : list (event B)) :
  complete_post req = false ->
  index Hst req evs
  = if eqb_str (method req) (of_string "POST")
    then (Done (Redirect (of_string "index")), evs ++ [Flash flash_message])
    else (Done (RenderTemplate (of_string "index.html") None None None), evs).
Proof.
  unfold complete_post, index.
  fold (persona_of req) (job_of req) (uploads_of req).
  destruct (eqb_str (method req) (of_string "POST")); [|reflexivity].
  intros H. cbn [andb] in H.
  assert (Hguard : py_not (persona_of req) || py_not (job_of req)
                   || (length (uploads_of req) <? 3) = true).
  { destruct (py_not (persona_of req)); [reflexivity|].
    destruct (py_not (job_of req)); [reflexivity|]. cbn [negb andb orb] in *.
    apply Nat.leb_gt in H. now apply Nat.ltb_lt. }
  rewrite Hguard. reflexivity.
Qed.

Lemma index_refuses_incomplete_request_witness :
  complete_post FakeApp.short_post = false
  /\ index FakeApp.machine FakeApp.short_post (@nil (event Fake.deployment))
     = (Done (Redirect (of_string "index")), [] ++ [Flash flash_message]).
Proof.
  split; [reflexivity|].
  exact (@index_refuses_incomplete_request Fake.deployment FakeApp.machine
           FakeApp.short_post [] eq_refl).
Defined.

(** X14: on a complete POST whose uploads can all be saved, whose
    documents the pipeline turns into a report and whose output file can be
    written, the handler saves every upload in order, reads the clock,
    runs the pipeline on the saved paths, writes the report to the output
    file as its last effect and renders that same report; the report lists
    the basenames of the uploaded file names, three or more, with the
    form's persona and job and the clock's timestamp. *)
Theorem index_renders_the_report (B : backend) (Hst : host) (req : request)
        (evs : list (event B)) (r : report B) calls :
  complete_post req = true ->
  (forall f, In f (uploads_of req) -> save_ok Hst (upload_path f) = true) ->
  output_ok Hst = true ->
  process_documents B (map upload_path (uploads_of req))
    (as_str (persona_of req)) (as_str (job_of req)) (strftime Hst) []
  = (Ok r, calls) ->
  index Hst req evs
  = (Done (RenderTemplate (of_string "index.html") (Some r)
             (persona_of req) (job_of req)),
     evs ++ saves_of B (uploads_of req) ++ [Strftime] ++ map Core calls
     ++ [Dump OUTPUT_FILE r])
  /\ metadata r
     = Metadata (map (fun f => basename (filename f)) (uploads_of req))
         (as_str (persona_of req)) (as_str (job_of req)) (strftime Hst)
  /\ 3 <= length (documents (metadata r)).
Proof.
  intros Hc Hsave Hout Hrun. split; [|split].
  - rewrite (@index_complete B Hst req evs Hc). unfold abind at 1.
    rewrite (@save_uploads_all B Hst _ [] evs Hsave). simpl app.
    unfold abind, now, core, dump, aret. rewrite Hrun, Hout.
    now rewrite <- !app_assoc.
  - rewrite (report_metadata _ _ _ _ _ Hrun). now rewrite upload_basenames.
  - rewrite (report_metadata _ _ _ _ _ Hrun). simpl.
    rewrite !length_map. now apply complete_post_true in Hc.
Qed.

Lemma index_renders_the_report_witness :
  index FakeApp.machine FakeApp.post (@nil (event Fake.deployment))
  = (Done (RenderTemplate (of_string "index.html") (Some Fake.outcome)
             (persona_of FakeApp.post) (job_of FakeApp.post)),
     [] ++ saves_of Fake.deployment (uploads_of FakeApp.post) ++ [Strftime]
     ++ map Core Fake.calls ++ [Dump OUTPUT_FILE Fake.outcome])
  /\ metadata Fake.outcome
     = Metadata
         (map (fun f => basename (filename f)) (uploads_of FakeApp.post))
         (as_str (persona_of FakeApp.post)) (as_str (job_of FakeApp.post))
         (strftime FakeApp.machine)
  /\ 3 <= length (documents (metadata Fake.outcome)).
Proof.
  apply (@index_renders_the_report Fake.deployment FakeApp.machine
           FakeApp.post [] Fake.outcome Fake.calls).
  - reflexivity.
  - intros f _. reflexivity.
  - reflexivity.
  - reflexivity.
Defined.

Lemma index_result_is_complete (B : backend) (Hst : host) (req : request)
      (evs evs' : list (event B)) t (r : report B) p j :
  index Hst req evs = (Done (RenderTemplate t (Some r) p j), evs') ->
  complete_post req = true.
Proof.
  intros H. apply complete_post_true. unfold index in H.
  fold (persona_of req) (job_of req) (uploads_of req) in H.
  destruct (eqb_str (method req) (of_string "POST")); [|discriminate].
  destruct (py_not (persona_of req)); [discriminate|].
  destruct (py_not (job_of req)); [discriminate|]. cbn [orb] in H.
  destruct (Nat.ltb_spec (length (uploads_of req)) 3); [discriminate|].
  auto.
Qed.

(** X15: whenever the handler renders a result, the request was a
    complete POST, every upload was saved, in order, before the first
    document was opened, the result is the report of the pipeline on the
    saved paths and writing it to the output file was the handler's last
    effect; the report lists three documents or more, the basenames of
    the uploaded file names. *)
Theorem index_rendered_result (B : backend) (Hst : host) (req : request)
        (evs evs' : list (event B)) t (r : report B) p j :
  index Hst req evs = (Done (RenderTemplate t (Some r) p j), evs') ->
  complete_post req = true
  /\ p = persona_of req /\ j = job_of req
  /\ (forall f, In f (uploads_of req) -> save_ok Hst (upload_path f) = true)
  /\ (exists calls,
        process_documents B (map upload_path (uploads_of req))
          (as_str (persona_of req)) (as_str (job_of req)) (strftime Hst) []
        = (Ok r, calls)
        /\ evs' = evs ++ saves_of B (uploads_of req) ++ [Strftime]
                  ++ map Core calls ++ [Dump OUTPUT_FILE r])
  /\ documents (metadata r)
     = map (fun f => basename (filename f)) (uploads_of req)
  /\ 3 <= length (documents (metadata r)).
Proof.
  intros H. pose proof (index_result_is_complete _ _ _ H) as Hc.
  rewrite (@index_complete B Hst req evs Hc) in H.
  apply abind_done in H as (paths & e1 & Hsave & H).
  apply save_uploads_done in Hsave as (Hall & -> & ->). simpl app in H.
  apply abind_done in H as (ts & e2 & Hnow & H).
  unfold now in Hnow. injection Hnow as <- <-.
  apply abind_done in H as (r' & e3 & Hcore & H).
  unfold core in Hcore.
  destruct (process_documents B (map upload_path (uploads_of req))
              (as_str (persona_of req)) (as_str (job_of req))
              (strftime Hst) []) as [[r0|e] calls] eqn:Hrun;
    [|discriminate].
  injection Hcore as <- <-.
  apply abind_done in H as ([] & e4 & Hdump & H).
  unfold dump in Hdump. destruct (output_ok Hst); [|discriminate].
  injection Hdump as <-. unfold aret in H. injection H as <- <- <- <- <-.
  pose proof (report_metadata _ _ _ _ _ Hrun) as Hmeta.
  split; [exact Hc|]. split; [reflexivity|]. split; [reflexivity|].
  split; [exact Hall|]. split; [|split].
  - exists calls. split; [reflexivity|]. now rewrite <- !app_assoc.
  - rewrite Hmeta. simpl. apply upload_basenames.
  - rewrite Hmeta. simpl. rewrite !length_map.
    now apply complete_post_true in Hc.
Qed.

Lemma index_rendered_result_witness :
  complete_post FakeApp.post = true
  /\ persona_of FakeApp.post = persona_of FakeApp.post
  /\ job_of FakeApp.post = job_of FakeApp.post
  /\ (forall f, In f (uploads_of FakeApp.post) ->
                save_ok FakeApp.machine (upload_path f) = true)
  /\ (exists calls,
        process_documents Fake.deployment
          (map upload_path (uploads_of FakeApp.post))
          (as_str (persona_of FakeApp.post)) (as_str (job_of FakeApp.post))
          (strftime FakeApp.machine) []
        = (Ok Fake.outcome, calls)
        /\ saves_of Fake.deployment (uploads_of FakeApp.post) ++ [Strftime]
           ++ map Core Fake.calls ++ [Dump OUTPUT_FILE Fake.outcome]
           = [] ++ saves_of Fake.deployment (uploads_of FakeApp.post)
             ++ [Strftime] ++ map Core calls
             ++ [Dump OUTPUT_FILE Fake.outcome])
  /\ documents (metadata Fake.outcome)
     = map (fun f => basename (filename f)) (uploads_of FakeApp.post)
  /\ 3 <= length (documents (metadata Fake.outcome)).
Proof.
  apply (@index_rendered_result Fake.deployment FakeApp.machine FakeApp.post
           [] _ (of_string "index.html")).
  reflexivity.
Defined.

(** X16: on a complete POST, the first upload that cannot be saved aborts
    the request with the error of that save: the uploads after it are not
    saved, the clock is not read, no document is opened, the model is not
    called and no output is written. *)
Theorem index_stops_at_failed_save (B : backend) (Hst : host) (req : request)
        (evs : list (event B)) pre f post :
  complete_post req = true ->
  uploads_of req = pre ++ f :: post ->
  (forall g, In g pre -> save_ok Hst (upload_path g) = true) ->
  save_ok Hst (upload_path f) = false ->
  index Hst req evs
  = (Raised (SaveError (upload_path f)),
     evs ++ saves_of B pre ++ [Save f (upload_path f)]).
Proof.
  intros Hc Hfs Hpre Hf. rewrite (@index_complete B Hst req evs Hc).
  unfold abind at 1. rewrite Hfs.
  now rewrite (@save_uploads_stops B Hst pre post f [] evs Hpre Hf).
Qed.

Lemma index_stops_at_failed_save_witness :
  index FakeApp.full_disk FakeApp.post (@nil (event Fake.deployment))
  = (Raised (SaveError Fake.path_b),
     [] ++ saves_of Fake.deployment
             [ {| filename := of_string "a.pdf"; stream := [] |} ]
     ++ [Save {| filename := of_string "b.pdf"; stream := [] |}
              Fake.path_b]).
Proof.
  apply (@index_stops_at_failed_save Fake.deployment FakeApp.full_disk
           FakeApp.post []
           [ {| filename := of_string "a.pdf"; stream := [] |} ]
           {| filename := of_string "b.pdf"; stream := [] |}
           [ {| filename := of_string "c.pdf"; stream := [] |} ]).
  - reflexivity.
  - reflexivity.
  - intros g [<-|[]]. reflexivity.
  - reflexivity.
Defined.

(** X17: on a complete POST whose uploads are all saved, an error of the
    pipeline (an unreadable document, a failing model) aborts the request
    with that error: nothing is written to the output file and nothing is
    rendered. *)
Theorem index_propagates_pipeline_error (B : backend) (Hst : host)
        (req : request) (evs : list (event B)) e calls :
  complete_post req = true ->
  (forall f, In f (uploads_of req) -> save_ok Hst (upload_path f) = true) ->
  process_documents B (map upload_path (uploads_of req))
    (as_str (persona_of req)) (as_str (job_of req)) (strftime Hst) []
  = (Err e, calls) ->
  index Hst req evs
  = (Raised (PipelineError e),
     evs ++ saves_of B (uploads_of req) ++ [Strftime] ++ map Core calls).
Proof.
  intros Hc Hsave Hrun. rewrite (@index_complete B Hst req evs Hc).
  unfold abind at 1.
  rewrite (@save_uploads_all B Hst _ [] evs Hsave). simpl app.
  unfold abind, now, core. rewrite Hrun. now rewrite <- !app_assoc.
Qed.

Lemma index_propagates_pipeline_error_witness :
  index FakeApp.machine FakeApp.unreadable_post
    (@nil (event Fake.deployment))
  = (Raised (PipelineError (OpenError Faulty.missing_path)),
     [] ++ saves_of Fake.deployment (uploads_of FakeApp.unreadable_post)
     ++ [Strftime]
     ++ map Core [CallOpen Fake.path_a; CallOpen Fake.path_b;
                  CallOpen Faulty.missing_path]).
Proof.
  apply (@index_propagates_pipeline_error Fake.deployment FakeApp.machine
           FakeApp.unreadable_post []).
  - reflexivity.
  - intros f _. reflexivity.
  - reflexivity.
Defined.
